(** * LAWBOT: the retrieval-augmented answering pipeline

    A shallow embedding of [app/rag/law_rag.py], [app/rag/law_rag_graph.py],
    [app/ingestion/embeddings.py] (the query side), [app/config.py] and the
    request model of [app/api/routes_law_chat.py], with the properties of the
    pipeline that the specification states.

    Conventions.
    - A Python [str] is a list of Unicode code points, so that [len], slicing
      and [strip] count what Python counts.
    - The three remote services (embeddings, vector search, chat completion)
      are deterministic oracles: each reply is a function of the request and of
      the requests issued so far.  Every request is appended to that history,
      which is how "before any network call" is stated.
    - A Python exception is a [Raise e] result; [print] and the timing
      variables, which never feed back into control flow, are left out. *)

From Stdlib Require Import ZArith NArith List String Ascii Bool Lia Floats.
From stdpp Require Import base option list strings gmap.
Import ListNotations.

Local Open Scope Z_scope.

(* ================================================================== *)
(** * Part I. Definitions *)
(* ================================================================== *)

(** ** Python strings as code-point lists *)

Abbreviation str := (list N).

(** Decoding of the UTF-8 bytes of a source literal into code points. *)
Fixpoint utf8_decode (bs : list N) : str :=
  match bs with
  | [] => []
  | b0 :: r0 =>
      if (b0 <? 128)%N then b0 :: utf8_decode r0
      else if (b0 <? 224)%N then
        match r0 with
        | b1 :: r1 => ((b0 - 192) * 64 + (b1 - 128))%N :: utf8_decode r1
        | _ => []
        end
      else if (b0 <? 240)%N then
        match r0 with
        | b1 :: b2 :: r2 =>
            ((b0 - 224) * 4096 + (b1 - 128) * 64 + (b2 - 128))%N :: utf8_decode r2
        | _ => []
        end
      else
        match r0 with
        | b1 :: b2 :: b3 :: r3 =>
            ((b0 - 240) * 262144 + (b1 - 128) * 4096 + (b2 - 128) * 64 + (b3 - 128))%N
              :: utf8_decode r3
        | _ => []
        end
  end.

(** [lit "..."] is the Python literal with that text. *)
Definition lit (s : string) : str :=
  utf8_decode (map N_of_ascii (list_ascii_of_string s)).

(** The line feed, written [\n] in the source. *)
Definition NL : str := [10%N].

(** [bool(s)] for a string: the empty string is falsy. *)
Definition truthy (s : str) : bool :=
  match s with [] => false | _ :: _ => true end.

(** [x or ""] for [x] of type [str | None]. *)
Definition or_empty (x : option str) : str :=
  match x with Some s => s | None => [] end.

(** [x or y] on [str | None] operands: the first operand when truthy, else the second. *)
Definition py_or (x y : option str) : option str :=
  match x with
  | Some (_ :: _) => x
  | _ => y
  end.

(** [str.isspace] on one code point: the characters [str.strip()] removes. *)
Definition isspace (c : N) : bool :=
  ((9 <=? c) && (c <=? 13) || (28 <=? c) && (c <=? 32)
   || (c =? 133) || (c =? 160) || (c =? 5760)
   || (8192 <=? c) && (c <=? 8202)
   || (c =? 8232) || (c =? 8233) || (c =? 8239) || (c =? 8287) || (c =? 12288))%N.

Fixpoint lstrip_by (f : N -> bool) (s : str) : str :=
  match s with
  | [] => []
  | c :: r => if f c then lstrip_by f r else s
  end.

Definition rstrip_by (f : N -> bool) (s : str) : str :=
  rev (lstrip_by f (rev s)).

(** [s.strip()] *)
Definition strip (s : str) : str := rstrip_by isspace (lstrip_by isspace s).

(** [s.rstrip('/')] *)
Definition rstrip_slash (s : str) : str := rstrip_by (N.eqb 47) s.

(** [s.replace("\n", " ")] *)
Definition replace_nl_space (s : str) : str :=
  map (fun c => if (c =? 10)%N then 32%N else c) s.

(** [sep.join(parts)] *)
Fixpoint join (sep : str) (parts : list str) : str :=
  match parts with
  | [] => []
  | [x] => x
  | x :: rest => x ++ sep ++ join sep rest
  end.

(** [s.split("\n")]-style splitting on one separator character. *)
Fixpoint split_on (c : N) (s : str) : list str :=
  match s with
  | [] => [[]]
  | x :: r =>
      if (x =? c)%N then [] :: split_on c r
      else match split_on c r with
           | [] => [[x]]
           | l :: ls => (x :: l) :: ls
           end
  end.

(** [s.startswith(p)] *)
Fixpoint startswith (p s : str) : bool :=
  match p, s with
  | [], _ => true
  | _ :: _, [] => false
  | a :: p', b :: s' => (a =? b)%N && startswith p' s'
  end.

(** Decimal rendering of a non-negative integer, as [str(n)] and [f"{n}"] give it. *)
Definition digit_char (d : N) : N := (48 + d)%N.

Fixpoint digits_fuel (fuel : nat) (n : N) (acc : str) : str :=
  match fuel with
  | O => acc
  | S fuel' =>
      let acc' := digit_char (n mod 10) :: acc in
      if (n <? 10)%N then acc' else digits_fuel fuel' (n / 10)%N acc'
  end.

Definition str_of_N (n : N) : str := digits_fuel (S (N.to_nat (N.log2 n))) n [].

Definition str_of_nat (n : nat) : str := str_of_N (N.of_nat n).

(** [len(s)] as a Python integer. *)
Definition len (s : str) : Z := Z.of_nat (length s).


(** ** Results and exceptions *)

(** The exceptions the modelled code raises or lets through.  [External msg]
    is whatever a client library raised (HTTP status error, provider error);
    [msg] is its [str()]. *)
Inductive exn :=
| RuntimeError (msg : str)
| IndexError
| KeyError (key : string)
| ValidationError (field : string)
| GraphRecursionError
| External (msg : str).

Inductive result (A : Type) :=
| Ok (a : A)
| Raise (e : exn).
Arguments Ok {A} a.
Arguments Raise {A} e.

Definition is_raise {A} (r : result A) : bool :=
  match r with Raise _ => true | Ok _ => false end.

Definition exn_str (e : exn) : str :=
  match e with
  | RuntimeError m => m
  | IndexError => lit "list index out of range"
  | KeyError k => lit k
  | ValidationError f => lit f
  | GraphRecursionError => lit "Recursion limit reached"
  | External m => m
  end.

(** ** Wire data *)

Abbreviation vector := (list float).

(** A point id of the vector store: an unsigned integer or a UUID string. *)
Inductive PointId :=
| IdInt (n : N)
| IdStr (s : str).

(** One element of the [result] array of a search reply.  [None] is an absent
    key; a payload value that is absent or [null] reads as [None] through
    [dict.get], so the payload holds text values only. *)
Record ScoredPoint := {
  sp_id : option PointId;
  sp_score : option float;
  sp_payload : option (gmap string str);
}.

(** The dictionary [qdrant_search_laws] builds for each hit. *)
Record Neighbor := {
  id : str;
  score : float;
  dataset : option str;
  category : option str;
  question : option str;
  answer : option str;
  answerSnippet : option str;
  docNo : option Z;
  collection : str;
}.

(** A streamed completion chunk: [chunk.choices], each choice with its
    [delta] (possibly [None]) and the delta's [content] (possibly [None]). *)
Record Delta := { content : option str }.
Record Choice := { delta : option Delta }.
Record Chunk := { choices : list Choice }.

(** ** The outside world *)

(** Requests that leave the process. *)
Inductive Request :=
| EmbeddingsCreate (api_key model : str) (input : list str)
| PointsSearch (url : str) (headers : list (string * str)) (vec : vector) (limit : Z)
| ChatCreate (api_key base_url model : str) (system_prompt user_prompt : str) (stream : bool).

Abbreviation History := (list Request).

(** What the code does not define: the process environment, [str.lower], the
    local KURE encoder (it runs in the process and sends nothing), the
    stopwatch, and the three remote services.  A remote reply may depend on
    the requests issued before it. *)
Record World := {
  getenv : string -> option str;
  str_lower : str -> str;
  elapsed_ms : History -> Z;
  kure_encode : str -> list str -> result (list vector);
  embeddings_reply : History -> str -> str -> list str -> result (list vector);
  search_reply : History -> str -> list (string * str) -> vector -> Z
                 -> result (option (list ScoredPoint));
  chat_reply : History -> str -> str -> str -> str -> str -> result (list (option str));
  chat_stream_reply : History -> str -> str -> str -> str -> str -> result (list Chunk);
}.

(** ** Computations: a history of requests threaded through fallible steps *)

Definition M (A : Type) : Type := History -> result A * History.

Definition ret {A} (a : A) : M A := fun h => (Ok a, h).

Definition raise {A} (e : exn) : M A := fun h => (Raise e, h).

Definition bind {A B} (c : M A) (k : A -> M B) : M B :=
  fun h =>
    match c h with
    | (Ok a, h') => k a h'
    | (Raise e, h') => (Raise e, h')
    end.

Notation "x <- c ;; k" := (bind c (fun x => k))
  (at level 20, c at level 99, k at level 200, only parsing).

(** Lifting of a pure fallible value. *)
Definition lift {A} (r : result A) : M A := fun h => (r, h).

(** A remote call: the request is recorded, then the oracle answers from the
    history as it stood before the call. *)
Definition remote {A} (rq : Request) (reply : History -> result A) : M A :=
  fun h => (reply h, h ++ [rq]).

(** [try: c except Exception as e: handler e] *)
Definition try_except {A} (c : M A) (handler : exn -> M A) : M A :=
  fun h =>
    match c h with
    | (Ok a, h') => (Ok a, h')
    | (Raise e, h') => handler e h'
    end.

(** [xs[0]] *)
Definition first_item {A} (xs : list A) : M A :=
  match xs with
  | x :: _ => ret x
  | [] => raise IndexError
  end.

(** ** app/config.py *)

Definition getenv_default (w : World) (name : string) (dflt : string) : str :=
  match getenv w name with Some v => v | None => lit dflt end.

Definition QDRANT_URL (w : World) : str := strip (getenv_default w "QDRANT_URL" "").
Definition QDRANT_API_KEY (w : World) : str := strip (getenv_default w "QDRANT_API_KEY" "").
Definition QDRANT_COLLECTION_NAME (w : World) : str :=
  strip (getenv_default w "QDRANT_COLLECTION_NAME" "law_qa_v1").
Definition QDRANT_COLLECTION_OAI (w : World) : str :=
  strip (getenv_default w "QDRANT_COLLECTION_OAI" "KLAC_BASIC_1_OAI_1536").
Definition EMBED_PROVIDER (w : World) : str :=
  str_lower w (strip (getenv_default w "EMBED_PROVIDER" "openai")).
Definition OPENAI_API_KEY_LAWBOT (w : World) : str :=
  strip (getenv_default w "OPENAI_API_KEY_LAWBOT" "").
Definition OPENAI_LAWBOT_MODEL (w : World) : str :=
  strip (getenv_default w "OPENAI_LAWBOT_MODEL" "gpt-4.1-mini").
Definition OPENAI_BASE_URL (w : World) : str := strip (getenv_default w "OPENAI_BASE_URL" "").

(** ** app/ingestion/embeddings.py *)

Definition _embed_provider (w : World) : str :=
  str_lower w (strip (getenv_default w "EMBED_PROVIDER" "openai")).

(** [os.getenv(a) or os.getenv(b)] followed by the emptiness test. *)
Definition _get_oai_client (w : World) : M str :=
  match py_or (getenv w "OPENAI_API_KEY_LAWBOT") (getenv w "OPENAI_API_KEY") with
  | Some (c :: k) => ret (c :: k)
  | _ => raise (RuntimeError (lit "OPENAI_API_KEY_LAWBOT 또는 OPENAI_API_KEY 환경 변수를 설정하세요."))
  end.

Definition _oai_embed_model (w : World) : str :=
  strip (getenv_default w "OPENAI_EMBED_MODEL" "text-embedding-3-small").

(** The cleaning loop: newlines become spaces, the text is trimmed, and a
    blank text is sent as one space. *)
Definition clean_text (t : str) : str :=
  let s := strip (replace_nl_space t) in
  match s with [] => [32%N] | _ => s end.

(** [cleaned[start:start+size] for start in range(0, len(cleaned), size)],
    [n] bounding the number of batches; [size] is at least 1 (it is 64 at the
    one call site). *)
Fixpoint batches {A} (n size : nat) (l : list A) : list (list A) :=
  match n with
  | O => []
  | S n' =>
      match l with
      | [] => []
      | _ :: _ => firstn size l :: batches n' size (skipn size l)
      end
  end.

(** The retry loop over one batch: [attempt] counts from 1; [left] attempts
    remain.  The last error is re-raised as a [RuntimeError] when none is left. *)
Fixpoint embed_attempts (w : World) (key model : str) (chunk : list str)
    (left : nat) (last_err : option exn) : M (list vector) :=
  match left with
  | O =>
      match last_err with
      | Some e => raise (RuntimeError (lit "OpenAI embeddings 실패: " ++ exn_str e))
      | None => ret []
      end
  | S left' =>
      try_except
        (remote (EmbeddingsCreate key model chunk)
           (fun h => embeddings_reply w h key model chunk))
        (fun e => embed_attempts w key model chunk left' (Some e))
  end.

Fixpoint embed_batches (w : World) (key model : str) (retry : nat)
    (chunks : list (list str)) (out : list vector) : M (list vector) :=
  match chunks with
  | [] => ret out
  | chunk :: rest =>
      data <- embed_attempts w key model chunk retry None ;;
      embed_batches w key model retry rest (out ++ data)
  end.

Definition embed_texts_openai (w : World) (texts : list str)
    (request_batch_size retry : nat) : M (list vector) :=
  match texts with
  | [] => ret []
  | _ :: _ =>
      key <- _get_oai_client w ;;
      let model := _oai_embed_model w in
      let cleaned := map clean_text texts in
      embed_batches w key model retry
        (batches (length cleaned) request_batch_size cleaned) []
  end.

Definition embed_texts_kure (w : World) (texts : list str) : M (list vector) :=
  match texts with
  | [] => ret []
  | _ :: _ =>
      lift (kure_encode w (getenv_default w "KURE_MODEL_NAME" "nlpai-lab/KURE-v1") texts)
  end.

Definition embed_texts (w : World) (texts : list str) : M (list vector) :=
  if decide (_embed_provider w = lit "kure") then embed_texts_kure w texts
  else embed_texts_openai w texts 64 3.

(** ** app/rag/law_rag.py *)

Definition _active_collection_name (w : World) : str :=
  if decide (str_lower w (strip (EMBED_PROVIDER w)) = lit "kure")
  then QDRANT_COLLECTION_NAME w
  else if truthy (QDRANT_COLLECTION_OAI w) then QDRANT_COLLECTION_OAI w
       else QDRANT_COLLECTION_NAME w.

Definition _qdrant_headers (w : World) : list (string * str) :=
  let h := [("Content-Type"%string, lit "application/json")] in
  if truthy (QDRANT_API_KEY w) then h ++ [("api-key"%string, QDRANT_API_KEY w)] else h.

(** [str(r.get("id", ""))] *)
Definition id_str (i : option PointId) : str :=
  match i with
  | None => []
  | Some (IdInt n) => str_of_N n
  | Some (IdStr s) => s
  end.

(** The body of the loop over [results]: one hit to one output dictionary. *)
Definition neighbor_of_hit (col : str) (r : ScoredPoint) : Neighbor :=
  let payload_obj : gmap string str :=
    match sp_payload r with Some p => p | None => ∅ end in
  {| id := id_str (sp_id r);
     score := match sp_score r with Some x => x | None => 0%float end;
     dataset := py_or (py_or (payload_obj !! "dataset_name"%string)
                             (payload_obj !! "dataset"%string))
                      (payload_obj !! "source_dataset"%string);
     category := py_or (payload_obj !! "law_category"%string)
                       (payload_obj !! "category"%string);
     question := payload_obj !! "question"%string;
     answer := payload_obj !! "answer"%string;
     answerSnippet := None;
     docNo := None;
     collection := col |}.

Definition qdrant_search_laws (w : World) (query_vec : vector) (top_k : Z)
    (collection_name : option str) : M (list Neighbor) :=
  if negb (truthy (QDRANT_URL w)) then
    raise (RuntimeError (lit "QDRANT_URL 이 비었습니다. .env 확인"))
  else
    let col :=
      strip (match collection_name with
             | Some (c :: n) => c :: n
             | _ => _active_collection_name w
             end) in
    if negb (truthy col) then
      raise (RuntimeError
               (lit "QDRANT_COLLECTION_NAME/QDRANT_COLLECTION_OAI 가 비었습니다. .env 확인"))
    else
      let url := rstrip_slash (QDRANT_URL w) ++ lit "/collections/" ++ col
                 ++ lit "/points/search" in
      let headers := _qdrant_headers w in
      data <- remote (PointsSearch url headers query_vec top_k)
                (fun h => search_reply w h url headers query_vec top_k) ;;
      let results := match data with Some rs => rs | None => [] end in
      ret (map (neighbor_of_hit col) results).

(** [f"[문서 {i}]"] *)
Definition doc_header (i : nat) : str := lit "[문서 " ++ str_of_nat i ++ lit "]".

(** The truncation marker. *)
Definition ellipsis : str := lit "…".

(** [enumerate(points, start)] *)
Fixpoint enumerate {A} (start : nat) (xs : list A) : list (nat * A) :=
  match xs with
  | [] => []
  | x :: r => (start, x) :: enumerate (S start) r
  end.

(** One iteration of the loop of [build_context_from_points]: the lines
    appended to [lines] for the pair [(i, p)]. *)
Definition context_step (max_chars_per_doc : Z) (lines : list str) (ip : nat * Neighbor)
    : list str :=
  let i := fst ip in
  let p := snd ip in
  let q := strip (or_empty (question p)) in
  let a := strip (or_empty (answer p)) in
  let a := if (0 <? max_chars_per_doc) && (max_chars_per_doc <? len a)
           then firstn (Z.to_nat max_chars_per_doc) a ++ ellipsis
           else a in
  let lines := lines ++ [doc_header i] in
  let lines := if truthy q then lines ++ [lit "Q: " ++ q] else lines in
  let lines := if truthy a then lines ++ [lit "A: " ++ a] else lines in
  lines ++ [[]].

(** The list [lines] when the loop ends. *)
Definition context_lines (points : list Neighbor) (max_chars_per_doc : Z) : list str :=
  fold_left (context_step max_chars_per_doc) (enumerate 1 points) [].

Definition build_context_from_points (points : list Neighbor) (max_chars_per_doc : Z) : str :=
  strip (join NL (context_lines points max_chars_per_doc)).

Definition _openai_client (w : World) : M (str * str) :=
  if negb (truthy (OPENAI_API_KEY_LAWBOT w)) then
    raise (RuntimeError (lit "OPENAI_API_KEY_LAWBOT 이 비었습니다. .env 확인"))
  else ret (OPENAI_API_KEY_LAWBOT w, OPENAI_BASE_URL w).

(** [(resp.choices[0].message.content or "").strip()] *)
Definition call_openai_chat (w : World) (system_prompt user_prompt : str) : M str :=
  client <- _openai_client w ;;
  chs <- remote (ChatCreate (fst client) (snd client) (OPENAI_LAWBOT_MODEL w)
                   system_prompt user_prompt false)
           (fun h => chat_reply w h (fst client) (snd client) (OPENAI_LAWBOT_MODEL w)
                       system_prompt user_prompt) ;;
  c0 <- first_item chs ;;
  ret (strip (or_empty c0)).

(** A generator object of [call_openai_chat_stream]: created (no line of the
    body has run), suspended at [yield] with the chunks still to come, or
    finished. *)
Inductive Generator :=
| GenCreated (system_prompt user_prompt : str)
| GenSuspended (pending : list Chunk)
| GenFinished.

(** Calling the generator function runs nothing. *)
Definition call_openai_chat_stream (system_prompt user_prompt : str) : Generator :=
  GenCreated system_prompt user_prompt.

(** [chunk.choices[0].delta.content if chunk.choices and chunk.choices[0].delta else None] *)
Definition chunk_delta (c : Chunk) : option str :=
  match choices c with
  | ch :: _ =>
      match delta ch with
      | Some d => content d
      | None => None
      end
  | [] => None
  end.

(** The [for chunk in stream] loop up to its next [yield]. *)
Fixpoint stream_loop (pending : list Chunk) : option str * Generator :=
  match pending with
  | [] => (None, GenFinished)
  | chunk :: rest =>
      match chunk_delta chunk with
      | Some (c :: d) => (Some (c :: d), GenSuspended rest)
      | _ => stream_loop rest
      end
  end.

(** [next(gen)]: the fragment yielded and the generator after it, [None] for
    [StopIteration]. *)
Definition gen_next (w : World) (g : Generator) : M (option str * Generator) :=
  match g with
  | GenCreated system_prompt user_prompt =>
      client <- _openai_client w ;;
      stream <- remote (ChatCreate (fst client) (snd client) (OPENAI_LAWBOT_MODEL w)
                          system_prompt user_prompt true)
                  (fun h => chat_stream_reply w h (fst client) (snd client)
                              (OPENAI_LAWBOT_MODEL w) system_prompt user_prompt) ;;
      ret (stream_loop stream)
  | GenSuspended pending => ret (stream_loop pending)
  | GenFinished => ret (None, GenFinished)
  end.

(** Consuming a generator to its end, as the streaming response does: at most
    [fuel] calls of [next]; [None] when they did not reach [StopIteration]. *)
Fixpoint gen_drain (w : World) (fuel : nat) (g : Generator) : M (option (list str)) :=
  match fuel with
  | O => ret None
  | S fuel' =>
      r <- gen_next w g ;;
      match fst r with
      | None => ret (Some [])
      | Some d =>
          rest <- gen_drain w fuel' (snd r) ;;
          ret (option_map (cons d) rest)
      end
  end.

Definition system_prompt_text : str :=
  lit "당신은 한국어 법률 상담 보조 AI입니다." ++ NL
  ++ lit "반드시 제공된 [문서 n] 근거를 우선하여 답하고, 근거가 부족하면 '추가상담 필요'를 명시하세요." ++ NL
  ++ lit "출력 형식:" ++ NL
  ++ lit "1) 요약" ++ NL
  ++ lit "2) 단계" ++ NL
  ++ lit "3) 주의사항(리스크)" ++ NL
  ++ lit "4) 추가상담" ++ NL.

Definition _build_prompts (question context : str) : str * str :=
  let system_prompt := system_prompt_text in
  let user_prompt :=
    lit "질문: " ++ question ++ NL ++ NL
    ++ lit "아래는 참고 문서(근거)입니다:" ++ NL ++ context ++ NL ++ NL
    ++ lit "요구 형식대로 답해주세요. 각 문장은 가능한 한 [문서 n] 근거를 붙이세요." in
  (system_prompt, user_prompt).

Definition search_law_with_answer (w : World) (query : str) (top_k : Z)
    : M (str * list Neighbor) :=
  let active_col := _active_collection_name w in
  vecs <- embed_texts w [query] ;;
  query_vec <- first_item vecs ;;
  points <- qdrant_search_laws w query_vec top_k (Some active_col) ;;
  let context := build_context_from_points points 900 in
  let prompts := _build_prompts query context in
  answer <- call_openai_chat w (fst prompts) (snd prompts) ;;
  ret (answer, points).

Definition stream_law_answer (w : World) (query : str) (top_k : Z)
    : M (Generator * list Neighbor) :=
  let active_col := _active_collection_name w in
  vecs <- embed_texts w [query] ;;
  query_vec <- first_item vecs ;;
  points <- qdrant_search_laws w query_vec top_k (Some active_col) ;;
  let context := build_context_from_points points 900 in
  let prompts := _build_prompts query context in
  let gen := call_openai_chat_stream (fst prompts) (snd prompts) in
  ret (gen, points).

(** ** app/rag/law_rag_graph.py *)

(** [GraphState(TypedDict, total=False)]: every key is optional. *)
Module State.
Record GraphState := {
  question : option str;
  top_k : option Z;
  embed_ms : option Z;
  qdrant_ms : option Z;
  query_vec : option vector;
  points : option (list Neighbor);
  context : option str;
  system_prompt : option str;
  user_prompt : option str;
  answer : option str;
}.
End State.
Abbreviation GraphState := State.GraphState.

(** The keys of the state, and the value stored under a key, for statements
    that range over all keys. *)
Inductive Key :=
| K_question | K_top_k | K_embed_ms | K_qdrant_ms | K_query_vec
| K_points | K_context | K_system_prompt | K_user_prompt | K_answer.

Inductive Value :=
| VStr (s : str)
| VInt (n : Z)
| VVec (v : vector)
| VPoints (ps : list Neighbor).

Definition lookup_key (k : Key) (s : GraphState) : option Value :=
  match k with
  | K_question => VStr <$> State.question s
  | K_top_k => VInt <$> State.top_k s
  | K_embed_ms => VInt <$> State.embed_ms s
  | K_qdrant_ms => VInt <$> State.qdrant_ms s
  | K_query_vec => VVec <$> State.query_vec s
  | K_points => VPoints <$> State.points s
  | K_context => VStr <$> State.context s
  | K_system_prompt => VStr <$> State.system_prompt s
  | K_user_prompt => VStr <$> State.user_prompt s
  | K_answer => VStr <$> State.answer s
  end.

Definition all_keys : list Key :=
  [K_question; K_top_k; K_embed_ms; K_qdrant_ms; K_query_vec;
   K_points; K_context; K_system_prompt; K_user_prompt; K_answer].

(** The keys present in a state. *)
Definition populated (s : GraphState) : list Key :=
  filter (fun k => is_Some (lookup_key k s)) all_keys.

(** [{"question": question, "top_k": int(top_k)}] *)
Definition initial_state (question : str) (top_k : Z) : GraphState :=
  {| State.question := Some question; State.top_k := Some top_k;
     State.embed_ms := None; State.qdrant_ms := None; State.query_vec := None;
     State.points := None; State.context := None; State.system_prompt := None;
     State.user_prompt := None; State.answer := None |}.

(** [state[key] = value], one assignment per key the nodes write. *)
Definition set_query_vec (v : vector) (s : GraphState) : GraphState :=
  {| State.question := State.question s; State.top_k := State.top_k s;
     State.embed_ms := State.embed_ms s; State.qdrant_ms := State.qdrant_ms s;
     State.query_vec := Some v;
     State.points := State.points s; State.context := State.context s;
     State.system_prompt := State.system_prompt s;
     State.user_prompt := State.user_prompt s; State.answer := State.answer s |}.

Definition set_embed_ms (dt : Z) (s : GraphState) : GraphState :=
  {| State.question := State.question s; State.top_k := State.top_k s;
     State.embed_ms := Some dt; State.qdrant_ms := State.qdrant_ms s;
     State.query_vec := State.query_vec s;
     State.points := State.points s; State.context := State.context s;
     State.system_prompt := State.system_prompt s;
     State.user_prompt := State.user_prompt s; State.answer := State.answer s |}.

Definition set_points (ps : list Neighbor) (s : GraphState) : GraphState :=
  {| State.question := State.question s; State.top_k := State.top_k s;
     State.embed_ms := State.embed_ms s; State.qdrant_ms := State.qdrant_ms s;
     State.query_vec := State.query_vec s;
     State.points := Some ps; State.context := State.context s;
     State.system_prompt := State.system_prompt s;
     State.user_prompt := State.user_prompt s; State.answer := State.answer s |}.

Definition set_qdrant_ms (dt : Z) (s : GraphState) : GraphState :=
  {| State.question := State.question s; State.top_k := State.top_k s;
     State.embed_ms := State.embed_ms s; State.qdrant_ms := Some dt;
     State.query_vec := State.query_vec s;
     State.points := State.points s; State.context := State.context s;
     State.system_prompt := State.system_prompt s;
     State.user_prompt := State.user_prompt s; State.answer := State.answer s |}.

Definition set_context (c : str) (s : GraphState) : GraphState :=
  {| State.question := State.question s; State.top_k := State.top_k s;
     State.embed_ms := State.embed_ms s; State.qdrant_ms := State.qdrant_ms s;
     State.query_vec := State.query_vec s;
     State.points := State.points s; State.context := Some c;
     State.system_prompt := State.system_prompt s;
     State.user_prompt := State.user_prompt s; State.answer := State.answer s |}.

Definition set_system_prompt (p : str) (s : GraphState) : GraphState :=
  {| State.question := State.question s; State.top_k := State.top_k s;
     State.embed_ms := State.embed_ms s; State.qdrant_ms := State.qdrant_ms s;
     State.query_vec := State.query_vec s;
     State.points := State.points s; State.context := State.context s;
     State.system_prompt := Some p;
     State.user_prompt := State.user_prompt s; State.answer := State.answer s |}.

Definition set_user_prompt (p : str) (s : GraphState) : GraphState :=
  {| State.question := State.question s; State.top_k := State.top_k s;
     State.embed_ms := State.embed_ms s; State.qdrant_ms := State.qdrant_ms s;
     State.query_vec := State.query_vec s;
     State.points := State.points s; State.context := State.context s;
     State.system_prompt := State.system_prompt s;
     State.user_prompt := Some p; State.answer := State.answer s |}.

Definition set_answer (a : str) (s : GraphState) : GraphState :=
  {| State.question := State.question s; State.top_k := State.top_k s;
     State.embed_ms := State.embed_ms s; State.qdrant_ms := State.qdrant_ms s;
     State.query_vec := State.query_vec s;
     State.points := State.points s; State.context := State.context s;
     State.system_prompt := State.system_prompt s;
     State.user_prompt := State.user_prompt s; State.answer := Some a |}.

(** [state[key]]: [KeyError] when the key is absent. *)
Definition getitem {A} (key : string) (v : option A) : M A :=
  match v with
  | Some a => ret a
  | None => raise (KeyError key)
  end.

(** A stopwatch reading, [int((time.perf_counter() - t0) * 1000)]. *)
Definition stopwatch (w : World) : M Z := fun h => (Ok (elapsed_ms w h), h).

Definition _node_embed (w : World) (state : GraphState) : M GraphState :=
  q <- getitem "question" (State.question state) ;;
  vecs <- embed_texts w [q] ;;
  vec <- first_item vecs ;;
  dt <- stopwatch w ;;
  let state := set_query_vec vec state in
  let state := set_embed_ms dt state in
  ret state.

Definition _node_retrieve (w : World) (state : GraphState) : M GraphState :=
  vec <- getitem "query_vec" (State.query_vec state) ;;
  let top_k := match State.top_k state with Some k => k | None => 5 end in
  pts <- qdrant_search_laws w vec top_k None ;;
  dt <- stopwatch w ;;
  let state := set_points pts state in
  let state := set_qdrant_ms dt state in
  let state := set_context (build_context_from_points pts 900) state in
  ret state.

Definition _node_prompt (state : GraphState) : M GraphState :=
  q <- getitem "question" (State.question state) ;;
  let context := or_empty (State.context state) in
  let system_prompt :=
    lit "당신은 한국어 법률 상담 보조 AI입니다." ++ NL
    ++ lit "반드시 제공된 [문서 n] 근거를 우선하여 답하고, 근거가 부족하면 '추가상담 필요'를 명시하세요." ++ NL
    ++ lit "출력 형식:" ++ NL
    ++ lit "1) 요약" ++ NL
    ++ lit "2) 단계" ++ NL
    ++ lit "3) 주의사항(리스크)" ++ NL
    ++ lit "4) 추가상담" ++ NL in
  let user_prompt :=
    lit "질문: " ++ q ++ NL ++ NL
    ++ lit "아래는 참고 문서(근거)입니다:" ++ NL ++ context ++ NL ++ NL
    ++ lit "요구 형식대로 답해주세요. 각 문장은 가능한 한 [문서 n] 근거를 붙이세요." in
  let state := set_system_prompt system_prompt state in
  let state := set_user_prompt user_prompt state in
  ret state.

Definition _node_generate (w : World) (state : GraphState) : M GraphState :=
  system_prompt <- getitem "system_prompt" (State.system_prompt state) ;;
  user_prompt <- getitem "user_prompt" (State.user_prompt state) ;;
  answer <- call_openai_chat w system_prompt user_prompt ;;
  let state := set_answer answer state in
  ret state.

(** The part of [langgraph.StateGraph] the module uses: named nodes, directed
    edges, an entry point.  A compiled graph runs the entry node, then follows
    the edge leaving the node just run, until it reaches [END]; it gives up
    after [recursion_limit] steps (25 unless configured). *)
Record StateGraph := {
  nodes : gmap string (GraphState -> M GraphState);
  edges : list (string * string);
  entry_point : option string;
}.

Definition END : string := "__end__".

Definition new_graph : StateGraph :=
  {| nodes := ∅; edges := []; entry_point := None |}.

Definition add_node (name : string) (f : GraphState -> M GraphState) (g : StateGraph)
    : StateGraph :=
  {| nodes := <[name := f]> (nodes g); edges := edges g; entry_point := entry_point g |}.

Definition add_edge (src dst : string) (g : StateGraph) : StateGraph :=
  {| nodes := nodes g; edges := edges g ++ [(src, dst)]; entry_point := entry_point g |}.

Definition set_entry_point (name : string) (g : StateGraph) : StateGraph :=
  {| nodes := nodes g; edges := edges g; entry_point := Some name |}.

(** The target of the edge leaving [src]. *)
Fixpoint successor (es : list (string * string)) (src : string) : option string :=
  match es with
  | [] => None
  | (a, b) :: r => if decide (a = src) then Some b else successor r src
  end.

Definition recursion_limit : nat := 25.

Fixpoint run_from (g : StateGraph) (fuel : nat) (cur : string) (state : GraphState)
    : M GraphState :=
  if decide (cur = END) then ret state
  else
    match fuel with
    | O => raise GraphRecursionError
    | S fuel' =>
        match nodes g !! cur with
        | None => raise (KeyError cur)
        | Some f =>
            state' <- f state ;;
            match successor (edges g) cur with
            | Some next => run_from g fuel' next state'
            | None => ret state'
            end
        end
    end.

(** [graph.invoke(state)] *)
Definition invoke (g : StateGraph) (state : GraphState) : M GraphState :=
  match entry_point g with
  | Some e => run_from g recursion_limit e state
  | None => raise (KeyError "__start__")
  end.

Definition _build_graph_full (w : World) : StateGraph :=
  let g := new_graph in
  let g := add_node "embed" (_node_embed w) g in
  let g := add_node "retrieve" (_node_retrieve w) g in
  let g := add_node "prompt" _node_prompt g in
  let g := add_node "generate" (_node_generate w) g in
  let g := set_entry_point "embed" g in
  let g := add_edge "embed" "retrieve" g in
  let g := add_edge "retrieve" "prompt" g in
  let g := add_edge "prompt" "generate" g in
  let g := add_edge "generate" END g in
  g.

Definition _build_graph_prep (w : World) : StateGraph :=
  let g := new_graph in
  let g := add_node "embed" (_node_embed w) g in
  let g := add_node "retrieve" (_node_retrieve w) g in
  let g := add_node "prompt" _node_prompt g in
  let g := set_entry_point "embed" g in
  let g := add_edge "embed" "retrieve" g in
  let g := add_edge "retrieve" "prompt" g in
  let g := add_edge "prompt" END g in
  g.

Definition LAW_GRAPH_FULL (w : World) : StateGraph := _build_graph_full w.
Definition LAW_GRAPH_PREP (w : World) : StateGraph := _build_graph_prep w.

Definition answer_law_question_graph (w : World) (question : str) (top_k : Z)
    : M (str * list Neighbor) :=
  let state := initial_state question top_k in
  final <- invoke (LAW_GRAPH_FULL w) state ;;
  let points := match State.points final with Some ps => ps | None => [] end in
  let answer := or_empty (State.answer final) in
  ret (answer, points).

Definition stream_law_answer_graph (w : World) (question : str) (top_k : Z)
    : M (Generator * list Neighbor) :=
  let state := initial_state question top_k in
  final <- invoke (LAW_GRAPH_PREP w) state ;;
  let points := match State.points final with Some ps => ps | None => [] end in
  let system_prompt := or_empty (State.system_prompt final) in
  let user_prompt := or_empty (State.user_prompt final) in
  let gen := call_openai_chat_stream system_prompt user_prompt in
  ret (gen, points).

(** ** app/api/routes_law_chat.py *)

Module Api.
Record LawChatRequest := {
  question : str;
  top_k : Z;
}.

Record LawSource := {
  id : str;
  score : float;
  dataset : option str;
  category : option str;
  src_question : option str;
  answerSnippet : option str;
  docNo : option Z;
}.

Record LawChatResponse := {
  ok : bool;
  answer : str;
  sources : list LawSource;
}.
End Api.

(** The request model: [question: str = Field(..., min_length=1)] and
    [top_k: int = Field(5, ge=1, le=20)].  A request body carries each field
    or not; a body that fails a constraint never reaches a handler. *)
Definition LawChatRequest (question : option str) (top_k : option Z)
    : result Api.LawChatRequest :=
  match question with
  | None => Raise (ValidationError "question")
  | Some q =>
      if len q <? 1 then Raise (ValidationError "question")
      else
        let k := match top_k with Some k => k | None => 5 end in
        if (k <? 1) || (20 <? k) then Raise (ValidationError "top_k")
        else Ok {| Api.question := q; Api.top_k := k |}
  end.

Definition LawSource (p : Neighbor) : Api.LawSource :=
  {| Api.id := id p; Api.score := score p; Api.dataset := dataset p;
     Api.category := category p; Api.src_question := question p;
     Api.answerSnippet := answerSnippet p; Api.docNo := docNo p |}.

Definition chat_law (w : World) (req : Api.LawChatRequest) : M Api.LawChatResponse :=
  r <- search_law_with_answer w (Api.question req) (Api.top_k req) ;;
  ret {| Api.ok := true; Api.answer := fst r; Api.sources := map LawSource (snd r) |}.

Definition chat_law_stream (w : World) (req : Api.LawChatRequest) : M Generator :=
  out <- stream_law_answer w (Api.question req) (Api.top_k req) ;;
  ret (fst out).

Definition chat_law_graph (w : World) (req : Api.LawChatRequest) : M Api.LawChatResponse :=
  r <- answer_law_question_graph w (Api.question req) (Api.top_k req) ;;
  ret {| Api.ok := true; Api.answer := fst r; Api.sources := map LawSource (snd r) |}.

(** The handler's guard on the shape of [out] never fires: [out] is the pair
    [stream_law_answer_graph] returns. *)
Definition chat_law_graph_stream (w : World) (req : Api.LawChatRequest) : M Generator :=
  out <- stream_law_answer_graph w (Api.question req) (Api.top_k req) ;;
  ret (fst out).

(** A POST to a route: the body is validated against the request model, and
    only then is the handler called. *)
Definition post {A} (handler : Api.LawChatRequest -> M A)
    (question : option str) (top_k : option Z) : M A :=
  req <- lift (LawChatRequest question top_k) ;;
  handler req.

(** ** Vocabulary of the statements *)

(** [(p.get("question") or "").strip()] and [(p.get("answer") or "").strip()] *)
Definition trimmed_question (p : Neighbor) : str := strip (or_empty (question p)).
Definition trimmed_answer (p : Neighbor) : str := strip (or_empty (answer p)).

(** The specification's wording of the Context Assembler (section 4.1): the
    answer text truncated to [C] characters, with the marker appended when
    truncated. *)
Definition truncated (C : Z) (a : str) : str :=
  if C <? len a then firstn (Z.to_nat C) a ++ ellipsis else a.

(** One labelled section: the header, then the question line and the answer
    line, each left out when its text is blank. *)
Definition section_lines (C : Z) (i : nat) (p : Neighbor) : list str :=
  doc_header i
    :: (if truthy (trimmed_question p) then [lit "Q: " ++ trimmed_question p] else [])
    ++ (if truthy (trimmed_answer p)
        then [lit "A: " ++ truncated C (trimmed_answer p)] else []).

(** Sections in rank order, numbered from 1, separated by a blank line. *)
Definition spec_context (C : Z) (points : list Neighbor) : str :=
  join (NL ++ NL)
    (map (fun ip => join NL (section_lines C (fst ip) (snd ip))) (enumerate 1 points)).

(** The text that follows "A: " in a section, for any cap: the value of
    [a] in the loop after the truncation test. *)
Definition answer_text (max_chars_per_doc : Z) (p : Neighbor) : str :=
  let a := trimmed_answer p in
  if (0 <? max_chars_per_doc) && (max_chars_per_doc <? len a)
  then firstn (Z.to_nat max_chars_per_doc) a ++ ellipsis
  else a.

(** The lines one iteration of the loop appends, before the closing blank line. *)
Definition emitted_section (C : Z) (i : nat) (p : Neighbor) : list str :=
  doc_header i
    :: (if truthy (trimmed_question p) then [lit "Q: " ++ trimmed_question p] else [])
    ++ (if truthy (answer_text C p) then [lit "A: " ++ answer_text C p] else []).

(** A text that begins, respectively ends, with a character [strip] keeps. *)
Definition starts_visible (s : str) : Prop :=
  exists c r, s = c :: r /\ isspace c = false.

Definition ends_visible (s : str) : Prop :=
  exists r c, s = r ++ [c] /\ isspace c = false.

(** The marker was appended to [shown]: it is the first [C] characters of
    [original] followed by the marker. *)
Definition marker_appended (C : Z) (original shown : str) : Prop :=
  shown = firstn (Z.to_nat C) original ++ ellipsis.

(** A line of the form [[문서 k]] with [k] a decimal numeral. *)
Definition is_digit (c : N) : bool := ((48 <=? c) && (c <=? 57))%N.

Definition is_doc_header (l : str) : bool :=
  startswith (lit "[문서 ") l
  && match rev (skipn 4 l) with
     | c :: ds => (c =? 93)%N && truthy ds && forallb is_digit ds
     | [] => false
     end.


(** The text has no line break. *)
Definition one_line (s : str) : Prop := ~ In 10%N s.

(** The user prompt around an empty context block. *)
Definition empty_context_prompt (question : str) : str :=
  lit "질문: " ++ question ++ NL ++ NL
  ++ lit "아래는 참고 문서(근거)입니다:" ++ NL ++ NL ++ NL
  ++ lit "요구 형식대로 답해주세요. 각 문장은 가능한 한 [문서 n] 근거를 붙이세요.".

(** The non-empty fragments of the service's chunk sequence, in order, read
    off the chunks as the service sends them: a chunk carries a fragment when
    it has a choice, its first choice has a delta and that delta has a
    content; a fragment counts when it is not the empty string. *)
Fixpoint nonempty_fragments (chunks : list Chunk) : list str :=
  match chunks with
  | [] => []
  | {| choices := {| delta := Some {| content := Some (c :: s) |} |} :: _ |} :: rest =>
      (c :: s) :: nonempty_fragments rest
  | _ :: rest => nonempty_fragments rest
  end.


(** A call was turned away before anything left the process: it raised, and
    the history is the one it started from. *)
Definition rejected_before_any_call {A} (h : History) (r : result A * History) : Prop :=
  is_raise (fst r) = true /\ snd r = h.

Definition is_search (rq : Request) : bool :=
  match rq with PointsSearch _ _ _ _ => true | _ => false end.

Definition is_embedding (rq : Request) : bool :=
  match rq with EmbeddingsCreate _ _ _ => true | _ => false end.

(** The stages of the graph, the function each runs and the keys each is
    designated to write. *)
Inductive Stage := Embed | Retrieve | Prompt | Generate.

Definition stage_fn (w : World) (st : Stage) : GraphState -> M GraphState :=
  match st with
  | Embed => _node_embed w
  | Retrieve => _node_retrieve w
  | Prompt => _node_prompt
  | Generate => _node_generate w
  end.

Definition stage_name (st : Stage) : string :=
  match st with
  | Embed => "embed" | Retrieve => "retrieve" | Prompt => "prompt" | Generate => "generate"
  end.

Definition writes (st : Stage) : list Key :=
  match st with
  | Embed => [K_query_vec; K_embed_ms]
  | Retrieve => [K_points; K_qdrant_ms; K_context]
  | Prompt => [K_system_prompt; K_user_prompt]
  | Generate => [K_answer]
  end.

(** The nodes a compiled graph visits from its entry point, in order. *)
Fixpoint path_from (g : StateGraph) (fuel : nat) (cur : string) : list string :=
  if decide (cur = END) then []
  else
    match fuel with
    | O => []
    | S fuel' =>
        cur :: match successor (edges g) cur with
               | Some next => path_from g fuel' next
               | None => []
               end
    end.

Definition path (g : StateGraph) : list string :=
  match entry_point g with
  | Some e => path_from g recursion_limit e
  | None => []
  end.

(** Running stages one after the other, keeping every intermediate state. *)
Fixpoint run_stages (w : World) (sts : list Stage) (s : GraphState) : M (list GraphState) :=
  match sts with
  | [] => ret []
  | st :: rest =>
      s' <- stage_fn w st s ;;
      tl <- run_stages w rest s' ;;
      ret (s' :: tl)
  end.

(** [s'] keeps every key [s] holds, with the value [s] holds. *)
Definition preserves (s s' : GraphState) : Prop :=
  forall k, is_Some (lookup_key k s) -> lookup_key k s' = lookup_key k s.

(** Every state of the list keeps what the state before it holds. *)
Fixpoint append_only (s : GraphState) (later : list GraphState) : Prop :=
  match later with
  | [] => True
  | s' :: rest => preserves s s' /\ append_only s' rest
  end.

(** The collection [qdrant_search_laws] targets:
    [(collection_name or _active_collection_name()).strip()]. *)
Definition resolved_collection (w : World) (collection_name : option str) : str :=
  strip (match collection_name with
         | Some (c :: n) => c :: n
         | _ => _active_collection_name w
         end).

(** The service a request goes to, the [limit] of a search request and the
    [input] of an embeddings request. *)
Inductive Service := Embedding | VectorSearch | Generation.

Definition service_of (rq : Request) : Service :=
  match rq with
  | EmbeddingsCreate _ _ _ => Embedding
  | PointsSearch _ _ _ _ => VectorSearch
  | ChatCreate _ _ _ _ _ _ => Generation
  end.

Definition search_limit (rq : Request) : option Z :=
  match rq with PointsSearch _ _ _ limit => Some limit | _ => None end.


Definition user_prompt_sent (rq : Request) : option str :=
  match rq with ChatCreate _ _ _ _ user_prompt _ => Some user_prompt | _ => None end.

(** ** A concrete world for the examples *)

Definition ascii_lower (s : str) : str :=
  map (fun c => if ((65 <=? c) && (c <=? 90))%N then (c + 32)%N else c) s.

Definition example_env (name : string) : option str :=
  if decide (name = "QDRANT_URL"%string) then Some (lit "http://localhost:6333/")
  else if decide (name = "OPENAI_API_KEY_LAWBOT"%string) then Some (lit "sk-test")
  else None.

Definition example_hit (n : N) (s : float) (q a : string) : ScoredPoint :=
  {| sp_id := Some (IdInt n); sp_score := Some s;
     sp_payload := Some (<["question"%string := lit q]>
                          (<["answer"%string := lit a]>
                            (<["law_category"%string := lit "임대차"]> ∅))) |}.

Definition example_hits : list ScoredPoint :=
  [example_hit 11 0.875%float "전세보증금 반환" "임차권등기명령을 신청할 수 있습니다.";
   example_hit 12 0.75%float "보증금 소송" "지급명령을 신청합니다.";
   example_hit 13 0.5%float "" ""].

Definition example_chunks : list Chunk :=
  [ {| choices := [] |};
    {| choices := [ {| delta := Some {| content := Some (lit "안녕") |} |} ] |};
    {| choices := [ {| delta := Some {| content := Some [] |} |} ] |};
    {| choices := [ {| delta := None |} ] |};
    {| choices := [ {| delta := Some {| content := None |} |} ] |};
    {| choices := [ {| delta := Some {| content := Some (lit "하세요") |} |} ] |} ].

(** Every service answers; the search honours [limit]. *)
Definition example_world : World :=
  {| getenv := example_env;
     str_lower := ascii_lower;
     elapsed_ms := fun h => Z.of_nat (length h);
     kure_encode := fun _ texts => Ok (map (fun _ => [1%float]) texts);
     embeddings_reply := fun _ _ _ input => Ok (map (fun _ => [0.5%float; 0.25%float]) input);
     search_reply := fun _ _ _ _ limit => Ok (Some (firstn (Z.to_nat limit) example_hits));
     chat_reply := fun _ _ _ _ _ _ => Ok [Some (lit " 임차권등기명령을 신청하세요. ")];
     chat_stream_reply := fun _ _ _ _ _ _ => Ok example_chunks |}.

(** The same world with no collection configured. *)
Definition no_collection_env (name : string) : option str :=
  if decide (name = "QDRANT_COLLECTION_NAME"%string) then Some []
  else if decide (name = "QDRANT_COLLECTION_OAI"%string) then Some (lit "  ")
  else example_env name.

Definition no_collection_world : World :=
  {| getenv := no_collection_env;
     str_lower := ascii_lower;
     elapsed_ms := elapsed_ms example_world;
     kure_encode := kure_encode example_world;
     embeddings_reply := embeddings_reply example_world;
     search_reply := search_reply example_world;
     chat_reply := chat_reply example_world;
     chat_stream_reply := chat_stream_reply example_world |}.

(** The same world with a vector store that finds nothing. *)
Definition no_hits_world : World :=
  {| getenv := example_env;
     str_lower := ascii_lower;
     elapsed_ms := elapsed_ms example_world;
     kure_encode := kure_encode example_world;
     embeddings_reply := embeddings_reply example_world;
     search_reply := fun _ _ _ _ _ => Ok (Some []);
     chat_reply := chat_reply example_world;
     chat_stream_reply := chat_stream_reply example_world |}.

(** A hit whose answer has trailing blanks, and one whose answer has a line
    that reads like a header. *)
Definition padded_point : Neighbor :=
  {| id := lit "1"; score := 0.5%float; dataset := None; category := None;
     question := None; answer := Some (lit "ab   ");
     answerSnippet := None; docNo := None; collection := lit "c" |}.

Definition two_line_point : Neighbor :=
  {| id := lit "1"; score := 0.5%float; dataset := None; category := None;
     question := None; answer := Some (lit "a" ++ NL ++ lit "[문서 1]");
     answerSnippet := None; docNo := None; collection := lit "c" |}.

Definition blank_point : Neighbor :=
  {| id := lit "2"; score := 0.25%float; dataset := None; category := None;
     question := Some (lit "  "); answer := None;
     answerSnippet := None; docNo := None; collection := lit "c" |}.

Definition example_question : str := lit "전세보증금을 못 받았어요".

(** ** app/rag/law_rag_chain.py *)

Module Chain.
(** The dictionary [_http_search_points_by_vector] builds for each hit. *)
Record Point := {
  id : PointId;
  score : float;
  payload : gmap string str;
  collection : str;
}.

(** The module's own copy of the collection choice. *)
Definition _active_collection_name (w : World) : str :=
  if decide (str_lower w (strip (EMBED_PROVIDER w)) = lit "kure")
  then QDRANT_COLLECTION_NAME w
  else if truthy (QDRANT_COLLECTION_OAI w) then QDRANT_COLLECTION_OAI w
       else QDRANT_COLLECTION_NAME w.
End Chain.

Definition _embed_question (w : World) (question : str) : M vector :=
  vecs <- embed_texts w [question] ;;
  match vecs with
  | [] => ret []
  | v :: _ => ret v
  end.

(** [float(item.get("score") or 0.0)]: a missing score and a zero of either
    sign give [0.0]. *)
Definition score_or_zero (x : option float) : float :=
  match x with
  | Some s => if PrimFloat.eqb s 0%float then 0%float else s
  | None => 0%float
  end.

Definition chain_point_of_hit (collection : str) (item : ScoredPoint) : Chain.Point :=
  {| Chain.id := match sp_id item with Some i => i | None => IdStr [] end;
     Chain.score := score_or_zero (sp_score item);
     Chain.payload := match sp_payload item with Some p => p | None => ∅ end;
     Chain.collection := collection |}.

Definition _http_search_points_by_vector (w : World) (query_vec : vector) (top_k : Z)
    : M (list Chain.Point) :=
  if negb (truthy (QDRANT_URL w)) then
    raise (RuntimeError (lit "QDRANT_URL 이 설정되어 있지 않습니다."))
  else
    let collection := strip (Chain._active_collection_name w) in
    if negb (truthy collection) then
      raise (RuntimeError (lit "QDRANT_COLLECTION_NAME/QDRANT_COLLECTION_OAI 가 비었습니다."))
    else
      let base_url := rstrip_slash (QDRANT_URL w) in
      let url := base_url ++ lit "/collections/" ++ collection ++ lit "/points/search" in
      let headers := [("Content-Type"%string, lit "application/json")] in
      let headers :=
        if truthy (QDRANT_API_KEY w)
        then headers ++ [("api-key"%string, QDRANT_API_KEY w)] else headers in
      data <- remote (PointsSearch url headers query_vec top_k)
                (fun h => search_reply w h url headers query_vec top_k) ;;
      let results := match data with Some rs => rs | None => [] end in
      ret (map (chain_point_of_hit collection) results).

(** [RunnableLambda(embed_step) | RunnableLambda(search_step)], invoked on a
    question; the result dictionary has the single key [points]. *)
Definition build_retrieval_chain (w : World) (top_k : Z) (question : str)
    : M (list Chain.Point) :=
  query_vec <- _embed_question w question ;;
  _http_search_points_by_vector w query_vec top_k.

(** ** app/main.py *)

(** The start-up hook: the warm-up embedding inside [try] / [except Exception]. *)
Definition _startup_warmup (w : World) : M unit :=
  try_except (r <- embed_texts w [lit "warmup"] ;; ret tt) (fun e => ret tt).

(** ** app/ingestion/data_loader.py *)

Module Loader.
Record LawRow := {
  source_dataset : str;
  law_category : str;
  question : str;
  answer : str;
}.
End Loader.
Abbreviation LawRow := Loader.LawRow.

(** A row as [csv.DictReader] yields it: column name to cell text; a column
    that is absent or [None] reads as [None] through [dict.get]. *)
Abbreviation RawRow := (gmap str str).

(** The body of the loop of [load_basic_1] over the rows [_read_csv] yields. *)
Definition load_basic_1_step (rows : list LawRow) (raw : RawRow) : list LawRow :=
  let law_category := strip (or_empty (raw !! lit "법률분류")) in
  let question := strip (or_empty (raw !! lit "기본질문")) in
  let answer := strip (or_empty (raw !! lit "기본답변")) in
  if negb (truthy question) || negb (truthy answer) then rows
  else rows ++ [ {| Loader.source_dataset := lit "KLAC_BASIC_1";
                    Loader.law_category := law_category;
                    Loader.question := question;
                    Loader.answer := answer |} ].

Definition load_basic_1 (csv_rows : list RawRow) : list LawRow :=
  fold_left load_basic_1_step csv_rows [].

Definition load_all_law_rows (csv_rows : list RawRow) : list LawRow :=
  load_basic_1 csv_rows.

(** ** app/ingestion/ingest_oai_cli.py *)

Fixpoint _pick (d : RawRow) (keys : list str) : option str :=
  match keys with
  | [] => None
  | k :: rest =>
      match d !! k with
      | Some v =>
          let s := strip v in
          if truthy s then Some s else _pick d rest
      | None => _pick d rest
      end
  end.

(** [x or y] with [x] of type [str | None] and [y] a string. *)
Definition or_else (x : option str) (y : str) : str :=
  match x with
  | Some (c :: s) => c :: s
  | _ => y
  end.

(** The body of the loop of [read_law_rows_from_csv]. *)
Definition read_law_rows_step (source_default : str) (rows : list LawRow) (r : RawRow)
    : list LawRow :=
  let source_dataset :=
    or_else (_pick r [lit "source_dataset"; lit "sourceDataset"; lit "dataset_name";
                      lit "dataset"; lit "datasetName"]) source_default in
  let law_category :=
    or_else (_pick r [lit "law_category"; lit "lawCategory"; lit "category";
                      lit "법률분류"]) (lit "UNKNOWN") in
  let question := or_else (_pick r [lit "question"; lit "q"; lit "기본질문"]) [] in
  let answer := or_else (_pick r [lit "answer"; lit "a"; lit "기본답변"]) [] in
  if negb (truthy (strip question)) || negb (truthy (strip answer)) then rows
  else rows ++ [ {| Loader.source_dataset := source_dataset;
                    Loader.law_category := law_category;
                    Loader.question := question;
                    Loader.answer := answer |} ].

(** [path_default] is [_default_source_dataset(csv_path)], the file's base
    name computed by [os.path]; [csv_rows] are the rows the reader yields. *)
Definition read_law_rows_from_csv (w : World) (path_default : str) (csv_rows : list RawRow)
    : list LawRow :=
  let source_default :=
    match getenv w "SOURCE_DATASET" with Some v => v | None => path_default end in
  fold_left (read_law_rows_step source_default) csv_rows [].

(** ** app/ingestion/qdrant_ingest.py and qdrant_ingest_openai.py *)

(** The text embedded for a row, [f"{r.question}\n\n{r.answer}"]. *)
Definition row_text (r : LawRow) : str :=
  Loader.question r ++ NL ++ NL ++ Loader.answer r.

(** The payload dictionary [upsert_law_rows] stores with each point. *)
Definition law_row_payload (r : LawRow) : gmap string str :=
  <["answer"%string := Loader.answer r]>
    (<["question"%string := Loader.question r]>
      (<["law_category"%string := Loader.law_category r]>
        (<["source_dataset"%string := Loader.source_dataset r]> ∅))).

(** The OpenAI variant adds the embedding model's name. *)
Definition law_row_payload_oai (embed_model : str) (r : LawRow) : gmap string str :=
  <["embed_model"%string := embed_model]> (law_row_payload r).

(** ** Vocabulary of the further statements *)

(** The search request for a collection. *)
Definition search_url (w : World) (col : str) : str :=
  rstrip_slash (QDRANT_URL w) ++ lit "/collections/" ++ col ++ lit "/points/search".

Definition search_request (w : World) (col : str) (vec : vector) (limit : Z) : Request :=
  PointsSearch (search_url w col) (_qdrant_headers w) vec limit.

Definition chat_request (w : World) (system_prompt user_prompt : str) (stream : bool)
    : Request :=
  ChatCreate (OPENAI_API_KEY_LAWBOT w) (OPENAI_BASE_URL w) (OPENAI_LAWBOT_MODEL w)
    system_prompt user_prompt stream.

Definition is_chat (rq : Request) : bool :=
  match rq with ChatCreate _ _ _ _ _ _ => true | _ => false end.

(** The key the embeddings client is built with,
    [os.getenv("OPENAI_API_KEY_LAWBOT") or os.getenv("OPENAI_API_KEY")]. *)
Definition embedding_api_key (w : World) : option str :=
  py_or (getenv w "OPENAI_API_KEY_LAWBOT") (getenv w "OPENAI_API_KEY").

(** A text an embeddings request may carry: not empty, no line feed. *)
Definition sendable (t : str) : Prop := t <> [] /\ one_line t.

(** An embeddings request with between 1 and [size] sendable texts; other
    requests qualify trivially. *)
Definition well_formed_embedding (size : nat) (rq : Request) : Prop :=
  match rq with
  | EmbeddingsCreate _ _ input =>
      (1 <= length input <= size)%nat /\ Forall sendable input
  | _ => True
  end.

(** The answer of [p] needs no truncation under the cap [C]. *)
Definition fits (C : Z) (p : Neighbor) : Prop :=
  C <= 0 \/ len (trimmed_answer p) <= C.

(** Running [c] from history [h] adds only requests that satisfy [P]. *)
Definition sends_within {A} (P : Request -> Prop) (c : M A) (h : History) : Prop :=
  exists reqs, snd (c h) = h ++ reqs /\ Forall P reqs.

(** A search request asks for exactly [k] neighbours, [k] between 1 and 20;
    other requests qualify trivially. *)
Definition asks_for (k : Z) (rq : Request) : Prop :=
  match rq with
  | PointsSearch _ _ _ limit => limit = k /\ 1 <= k <= 20
  | _ => True
  end.

(** A cell that is present and not blank. *)
Definition filled (d : RawRow) (k : str) : Prop :=
  exists v, d !! k = Some v /\ strip v <> [].

(** ** Further example data *)

(** The example world with every service refusing. *)
Definition failing_world : World :=
  {| getenv := example_env;
     str_lower := ascii_lower;
     elapsed_ms := elapsed_ms example_world;
     kure_encode := fun _ _ => Raise (External (lit "no model"));
     embeddings_reply := fun _ _ _ _ => Raise (External (lit "429"));
     search_reply := fun _ _ _ _ _ => Raise (External (lit "503"));
     chat_reply := fun _ _ _ _ _ _ => Raise (External (lit "401"));
     chat_stream_reply := fun _ _ _ _ _ _ => Raise (External (lit "401")) |}.

(** The example world with embeddings answering and the search refusing. *)
Definition search_down_world : World :=
  {| getenv := example_env;
     str_lower := ascii_lower;
     elapsed_ms := elapsed_ms example_world;
     kure_encode := kure_encode example_world;
     embeddings_reply := embeddings_reply example_world;
     search_reply := fun _ _ _ _ _ => Raise (External (lit "503"));
     chat_reply := chat_reply example_world;
     chat_stream_reply := chat_stream_reply example_world |}.

(** A world with no environment variable set. *)
Definition bare_world : World :=
  {| getenv := fun _ => None;
     str_lower := ascii_lower;
     elapsed_ms := elapsed_ms example_world;
     kure_encode := kure_encode example_world;
     embeddings_reply := embeddings_reply example_world;
     search_reply := search_reply example_world;
     chat_reply := chat_reply example_world;
     chat_stream_reply := chat_stream_reply example_world |}.

(** The example world without the chat API key. *)
Definition no_chat_key_world : World :=
  {| getenv := fun name =>
       if decide (name = "OPENAI_API_KEY_LAWBOT"%string) then None
       else if decide (name = "OPENAI_API_KEY"%string) then Some (lit "sk-embed")
       else example_env name;
     str_lower := ascii_lower;
     elapsed_ms := elapsed_ms example_world;
     kure_encode := kure_encode example_world;
     embeddings_reply := embeddings_reply example_world;
     search_reply := search_reply example_world;
     chat_reply := chat_reply example_world;
     chat_stream_reply := chat_stream_reply example_world |}.

(** The example world whose embedding service returns no vector. *)
Definition no_vector_world : World :=
  {| getenv := example_env;
     str_lower := ascii_lower;
     elapsed_ms := elapsed_ms example_world;
     kure_encode := kure_encode example_world;
     embeddings_reply := fun _ _ _ _ => Ok [];
     search_reply := search_reply example_world;
     chat_reply := chat_reply example_world;
     chat_stream_reply := chat_stream_reply example_world |}.

Definition example_row : LawRow :=
  {| Loader.source_dataset := lit "KLAC_BASIC_1";
     Loader.law_category := lit "임대차";
     Loader.question := lit "보증금을 못 받았어요";
     Loader.answer := lit "임차권등기명령을 신청하세요." |}.

Definition example_csv_rows : list RawRow :=
  [ <[lit "법률분류" := lit " 임대차 "]>
      (<[lit "기본질문" := lit "보증금을 못 받았어요"]>
        (<[lit "기본답변" := lit "임차권등기명령을 신청하세요. "]> ∅));
    <[lit "기본질문" := lit "   "]> (<[lit "기본답변" := lit "답변"]> ∅);
    <[lit "q" := lit "내용증명"]> (<[lit "a" := lit "보낼 수 있습니다."]> ∅) ].

(* ================================================================== *)
(** * Part II. Properties *)
(* ================================================================== *)

Example lit_header : lit "[문서 " = [91; 47928; 49436; 32]%N.
Proof. reflexivity. Qed.

Example lit_marker : lit "…" = [8230%N].
Proof. reflexivity. Qed.

Example strip_example : strip (lit "  ab c  ") = lit "ab c".
Proof. reflexivity. Qed.

Example str_of_nat_example : str_of_nat 120 = lit "120".
Proof. reflexivity. Qed.

Example split_example : split_on 10 (lit "a" ++ NL ++ NL ++ lit "b") = [lit "a"; []; lit "b"].
Proof. reflexivity. Qed.

(** ** Strings *)

Lemma lstrip_by_keep f c s : f c = false -> lstrip_by f (c :: s) = c :: s.
Proof. intros H. simpl. now rewrite H. Qed.

Lemma lstrip_by_shape f s :
  lstrip_by f s = [] \/ exists c r, lstrip_by f s = c :: r /\ f c = false.
Proof.
  induction s as [|c s IH]; simpl; [now left|].
  destruct (f c) eqn:E; [exact IH|].
  right. now exists c, s.
Qed.

Lemma rstrip_by_keep f s c : f c = false -> rstrip_by f (s ++ [c]) = s ++ [c].
Proof.
  intros H. unfold rstrip_by. rewrite rev_app_distr. simpl.
  rewrite H. simpl. now rewrite rev_involutive.
Qed.

Lemma rstrip_by_drop f s c : f c = true -> rstrip_by f (s ++ [c]) = rstrip_by f s.
Proof.
  intros H. unfold rstrip_by. rewrite rev_app_distr. simpl. now rewrite H.
Qed.

Lemma rstrip_by_shape f s :
  rstrip_by f s = [] \/ exists r c, rstrip_by f s = r ++ [c] /\ f c = false.
Proof.
  unfold rstrip_by.
  destruct (lstrip_by_shape f (rev s)) as [E | (c & r & E & Hc)]; rewrite E.
  - now left.
  - right. exists (rev r), c. now simpl.
Qed.

Lemma strip_shape s : strip s = [] \/ ends_visible (strip s).
Proof. unfold strip, ends_visible. apply rstrip_by_shape. Qed.

Lemma truthy_strip_ends s : truthy (strip s) = true -> ends_visible (strip s).
Proof.
  intros H. destruct (strip_shape s) as [E | E]; [|exact E].
  rewrite E in H. discriminate.
Qed.

Lemma ends_visible_app s t : ends_visible t -> ends_visible (s ++ t).
Proof.
  intros (r & c & -> & Hc). exists (s ++ r), c. now rewrite app_assoc.
Qed.

Lemma starts_visible_app s t : starts_visible s -> starts_visible (s ++ t).
Proof. intros (c & r & -> & Hc). now exists c, (r ++ t). Qed.

Lemma strip_line_feed s : starts_visible s -> ends_visible s -> strip (s ++ NL) = s.
Proof.
  intros (c & r & -> & Hc) (r' & c' & E & Hc').
  unfold strip. simpl. rewrite Hc.
  change (c :: r ++ NL) with ((c :: r) ++ [10%N]).
  rewrite rstrip_by_drop by reflexivity.
  rewrite E. now apply rstrip_by_keep.
Qed.

Lemma strip_nil : strip [] = [].
Proof. reflexivity. Qed.

Lemma join_cons sep x L : L <> [] -> join sep (x :: L) = x ++ sep ++ join sep L.
Proof. destruct L; [congruence | reflexivity]. Qed.

Lemma join_app sep L1 L2 :
  L1 <> [] -> L2 <> [] -> join sep (L1 ++ L2) = join sep L1 ++ sep ++ join sep L2.
Proof.
  induction L1 as [|x L1 IH]; intros H1 H2; [congruence|].
  destruct L1 as [|y L1].
  - simpl app. now rewrite join_cons.
  - change ((x :: y :: L1) ++ L2) with (x :: ((y :: L1) ++ L2)).
    rewrite !join_cons by (simpl; congruence).
    rewrite IH by congruence. now rewrite <- !app_assoc.
Qed.

Lemma join_snoc_blank sep L : L <> [] -> join sep (L ++ [[]]) = join sep L ++ sep.
Proof.
  intros H. rewrite join_app by congruence. simpl. now rewrite app_nil_r.
Qed.

(** Lines grouped in blocks, each block closed by a blank line: joining the
    lines gives the blocks separated by one blank line, and a final line feed. *)
Lemma join_blocks (blocks : list (list str)) :
  blocks <> [] -> Forall (fun b => b <> []) blocks ->
  join NL (concat (map (fun b => b ++ [[]]) blocks))
  = join (NL ++ NL) (map (join NL) blocks) ++ NL.
Proof.
  induction blocks as [|b bs IH]; intros Hne Hall; [congruence|].
  inversion Hall as [|? ? Hb Hbs]; subst.
  destruct bs as [|b' bs].
  - simpl. rewrite app_nil_r. now apply join_snoc_blank.
  - change (concat (map (fun b => b ++ [[]]) (b :: b' :: bs)))
      with ((b ++ [[]]) ++ concat (map (fun b => b ++ [[]]) (b' :: bs))).
    rewrite join_app.
    + rewrite IH by (congruence || assumption).
      rewrite join_snoc_blank by assumption.
      change (map (join NL) (b :: b' :: bs))
        with (join NL b :: map (join NL) (b' :: bs)).
      rewrite join_cons by (simpl; congruence).
      now rewrite <- !app_assoc.
    + destruct b; simpl; congruence.
    + simpl. destruct b'; simpl; congruence.
Qed.

Lemma join_starts_visible sep x L : starts_visible x -> starts_visible (join sep (x :: L)).
Proof.
  intros H. destruct L; [exact H|].
  rewrite join_cons by congruence. now apply starts_visible_app.
Qed.

Lemma join_ends_visible sep L x : ends_visible x -> ends_visible (join sep (L ++ [x])).
Proof.
  intros H. destruct L as [|y L]; [exact H|].
  rewrite join_app by (simpl; congruence).
  rewrite app_assoc. now apply ends_visible_app.
Qed.

(** ** The Context Assembler *)

Lemma context_step_appends C lines i p :
  context_step C lines (i, p) = lines ++ emitted_section C i p ++ [[]].
Proof.
  unfold context_step, emitted_section, answer_text, trimmed_question, trimmed_answer.
  cbn [fst snd].
  destruct (truthy (strip (or_empty (question p))));
    destruct (truthy _); cbn [app]; rewrite <- ?app_assoc; reflexivity.
Qed.

Lemma fold_context_step C ips lines :
  fold_left (context_step C) ips lines
  = lines ++ concat (map (fun ip => emitted_section C (fst ip) (snd ip) ++ [[]]) ips).
Proof.
  revert lines. induction ips as [|[i p] ips IH]; intros lines;
    cbn [fold_left map concat fst snd].
  - now rewrite app_nil_r.
  - rewrite IH, context_step_appends. now rewrite <- !app_assoc.
Qed.

Lemma context_lines_sections points C :
  context_lines points C
  = concat (map (fun b => b ++ [[]])
              (map (fun ip => emitted_section C (fst ip) (snd ip)) (enumerate 1 points))).
Proof.
  unfold context_lines. rewrite fold_context_step. simpl. now rewrite map_map.
Qed.

Lemma doc_header_starts i : starts_visible (doc_header i).
Proof.
  unfold doc_header. rewrite lit_header.
  eexists _, _. split; [reflexivity | reflexivity].
Qed.

Lemma doc_header_ends i : ends_visible (doc_header i).
Proof.
  unfold doc_header. rewrite app_assoc. eexists _, 93%N.
  split; [reflexivity | reflexivity].
Qed.

Lemma answer_text_truthy C p : truthy (answer_text C p) = truthy (trimmed_answer p).
Proof.
  unfold answer_text. cbv zeta.
  destruct ((0 <? C) && (C <? len (trimmed_answer p))) eqn:E; [|reflexivity].
  apply andb_true_iff in E as [H0 H1].
  apply Z.ltb_lt in H0, H1. unfold len in H1.
  destruct (trimmed_answer p) as [|c a]; [simpl in H1; lia|].
  replace (Z.to_nat C) with (S (Z.to_nat (C - 1))) by lia. reflexivity.
Qed.

Lemma answer_text_ends C p :
  truthy (answer_text C p) = true -> ends_visible (answer_text C p).
Proof.
  intros H. pose proof H as H'. rewrite answer_text_truthy in H'.
  unfold answer_text in *. cbv zeta in *.
  destruct ((0 <? C) && (C <? len (trimmed_answer p))).
  - eexists _, 8230%N. split; reflexivity.
  - now apply truthy_strip_ends.
Qed.

Lemma emitted_section_starts C i p : starts_visible (join NL (emitted_section C i p)).
Proof. apply join_starts_visible, doc_header_starts. Qed.

Lemma emitted_section_ends C i p : ends_visible (join NL (emitted_section C i p)).
Proof.
  unfold emitted_section.
  destruct (truthy (answer_text C p)) eqn:Ea.
  - rewrite app_comm_cons. apply join_ends_visible.
    apply ends_visible_app. now apply answer_text_ends.
  - rewrite app_nil_r.
    destruct (truthy (trimmed_question p)) eqn:Eq.
    + apply (join_ends_visible NL [doc_header i]).
      apply ends_visible_app. now apply truthy_strip_ends.
    + apply doc_header_ends.
Qed.

Lemma join_all_starts sep L :
  L <> [] -> Forall starts_visible L -> starts_visible (join sep L).
Proof.
  intros Hne Hall. destruct L as [|x L]; [congruence|].
  apply join_starts_visible. now inversion Hall.
Qed.

Lemma join_all_ends sep L :
  L <> [] -> Forall ends_visible L -> ends_visible (join sep L).
Proof.
  induction L as [|x L IH]; intros Hne Hall; [congruence|].
  inversion Hall as [|? ? Hx HL]; subst.
  destruct L as [|y L]; [exact Hx|].
  rewrite join_cons by congruence. rewrite app_assoc.
  apply ends_visible_app. apply IH; [congruence | assumption].
Qed.

(** The trailing [strip] removes the blank line that closes the last section
    and nothing else: the result is the sections separated by one blank line. *)
Lemma build_context_blocks points C :
  build_context_from_points points C
  = join (NL ++ NL)
      (map (fun ip => join NL (emitted_section C (fst ip) (snd ip))) (enumerate 1 points)).
Proof.
  unfold build_context_from_points. rewrite context_lines_sections.
  destruct points as [|p ps]; [reflexivity|].
  rewrite join_blocks.
  - rewrite map_map. apply strip_line_feed.
    + apply join_all_starts; [simpl; congruence|].
      apply List.Forall_forall. intros x Hx. apply in_map_iff in Hx as (ip & <- & _).
      apply emitted_section_starts.
    + apply join_all_ends; [simpl; congruence|].
      apply List.Forall_forall. intros x Hx. apply in_map_iff in Hx as (ip & <- & _).
      apply emitted_section_ends.
  - simpl. congruence.
  - apply List.Forall_forall. intros x Hx. apply in_map_iff in Hx as (ip & <- & _).
    unfold emitted_section. congruence.
Qed.

Lemma answer_text_truncated C p :
  0 < C -> answer_text C p = truncated C (trimmed_answer p).
Proof.
  intros H. unfold answer_text, truncated. cbv zeta.
  apply Z.ltb_lt in H. now rewrite H.
Qed.

Lemma emitted_section_spec C i p : 0 < C -> emitted_section C i p = section_lines C i p.
Proof.
  intros H. unfold emitted_section, section_lines.
  rewrite answer_text_truthy. now rewrite answer_text_truncated.
Qed.

Lemma truncated_length C a : 0 < C -> len (truncated C a) <= C + len ellipsis.
Proof.
  intros H. unfold truncated, len.
  destruct (C <? Z.of_nat (length a)) eqn:E.
  - apply Z.ltb_lt in E. rewrite length_app, length_firstn. simpl length. lia.
  - apply Z.ltb_ge in E. simpl length. lia.
Qed.

Lemma truncated_marker C a :
  0 < C -> (marker_appended C a (truncated C a) <-> C < len a).
Proof.
  intros H. unfold marker_appended, truncated, len.
  destruct (C <? Z.of_nat (length a)) eqn:E.
  - apply Z.ltb_lt in E. tauto.
  - apply Z.ltb_ge in E. split; [|lia].
    intros Hm. apply (f_equal (@length N)) in Hm.
    rewrite length_app, length_firstn in Hm. simpl length in Hm. lia.
Qed.

(** ** Header lines *)








Lemma forallb_rev {A} (f : A -> bool) l : forallb f (rev l) = forallb f l.
Proof.
  induction l as [|x l IH]; [reflexivity|].
  simpl. rewrite forallb_app, IH. simpl. rewrite andb_true_r. apply andb_comm.
Qed.



Lemma is_doc_header_question_line q : is_doc_header (lit "Q: " ++ q) = false.
Proof. reflexivity. Qed.

Lemma is_doc_header_answer_line a : is_doc_header (lit "A: " ++ a) = false.
Proof. reflexivity. Qed.













Lemma in_firstn {A} (x : A) n l : In x (firstn n l) -> In x l.
Proof.
  revert l. induction n as [|n IH]; intros [|y l] H; simpl in H; try contradiction.
  destruct H as [-> | H]; [now left | right; now apply IH].
Qed.






Lemma build_context_truthy p ps C : truthy (build_context_from_points (p :: ps) C) = true.
Proof.
  rewrite build_context_blocks.
  assert (H : starts_visible
                (join (NL ++ NL)
                   (map (fun ip => join NL (emitted_section C (fst ip) (snd ip)))
                      (enumerate 1 (p :: ps))))).
  { apply join_starts_visible, emitted_section_starts. }
  destruct H as (c & r & -> & _). reflexivity.
Qed.

(** ** C3: sections in rank order, answers capped *)

(** C3, the claim as stated fails: a neighbour whose answer is "ab" followed
    by three blanks is longer than the cap 3, yet its section carries the
    answer "ab" with no marker, because the answer is trimmed before its
    length is compared with the cap. *)
Lemma padded_answer_gets_no_marker :
  3 < len (or_empty (answer padded_point))
  /\ build_context_from_points [padded_point] 3 = lit "[문서 1]" ++ NL ++ lit "A: ab"
  /\ ~ marker_appended 3 (or_empty (answer padded_point)) (answer_text 3 padded_point).
Proof.
  split; [reflexivity|]. split; [reflexivity|].
  unfold marker_appended. vm_compute. discriminate.
Qed.

(** C3 (amended): for every neighbour sequence and cap C > 0, the assembled
    context is one section per neighbour, in input order and numbered from 1,
    sections separated by a blank line; in each section the answer text is at
    most C characters plus the marker, and the marker is appended exactly when
    the answer, after trimming surrounding whitespace, is longer than C. *)
Theorem context_sections_ranked_and_capped (points : list Neighbor) (C : Z) :
  0 < C ->
  build_context_from_points points C = spec_context C points
  /\ Forall (fun p =>
        len (truncated C (trimmed_answer p)) <= C + len ellipsis
        /\ (marker_appended C (trimmed_answer p) (truncated C (trimmed_answer p))
            <-> C < len (trimmed_answer p)))
      points.
Proof.
  intros HC. split.
  - rewrite build_context_blocks. unfold spec_context.
    f_equal. apply map_ext. intros [i p]. cbn [fst snd].
    now rewrite emitted_section_spec.
  - apply List.Forall_forall. intros p _. split.
    + now apply truncated_length.
    + now apply truncated_marker.
Qed.

Lemma context_sections_example :
  0 < 900
  /\ (build_context_from_points [padded_point; blank_point; two_line_point] 900
      = spec_context 900 [padded_point; blank_point; two_line_point]
      /\ Forall (fun p =>
            len (truncated 900 (trimmed_answer p)) <= 900 + len ellipsis
            /\ (marker_appended 900 (trimmed_answer p) (truncated 900 (trimmed_answer p))
                <-> 900 < len (trimmed_answer p)))
          [padded_point; blank_point; two_line_point]).
Proof.
  split; [reflexivity|].
  apply (context_sections_ranked_and_capped
           [padded_point; blank_point; two_line_point] 900).
  reflexivity.
Defined.

(** ** C10: one header per neighbour *)




(** ** The graph runs its nodes in sequence *)

Lemma run_from_end g fuel s : run_from g fuel END s = ret s.
Proof. destruct fuel; reflexivity. Qed.

Lemma run_from_step g fuel cur f next s :
  cur <> END -> nodes g !! cur = Some f -> successor (edges g) cur = Some next ->
  run_from g (S fuel) cur s = (s' <- f s ;; run_from g fuel next s').
Proof.
  intros Hne Hf Hs. simpl. destruct (decide (cur = END)); [contradiction|].
  now rewrite Hf, Hs.
Qed.

Lemma bind_ext {A B} (c : M A) (k1 k2 : A -> M B) h :
  (forall a h', k1 a h' = k2 a h') -> bind c k1 h = bind c k2 h.
Proof.
  intros H. unfold bind. destruct (c h) as [[a|e] h']; [apply H | reflexivity].
Qed.

Ltac graph_lookup :=
  unfold _build_graph_full, _build_graph_prep;
  cbn [nodes add_node set_entry_point add_edge new_graph];
  repeat (rewrite lookup_insert_ne by discriminate);
  apply lookup_insert_eq.

Ltac graph_step name f next :=
  rewrite (run_from_step _ _ name f next);
  [ apply bind_ext; intros ? ? | discriminate | graph_lookup | reflexivity ].

Lemma invoke_full w s h :
  invoke (LAW_GRAPH_FULL w) s h
  = (s1 <- _node_embed w s ;;
     s2 <- _node_retrieve w s1 ;;
     s3 <- _node_prompt s2 ;;
     s4 <- _node_generate w s3 ;;
     ret s4) h.
Proof.
  unfold invoke, LAW_GRAPH_FULL, recursion_limit.
  change (entry_point (_build_graph_full w)) with (Some "embed"%string). cbv iota.
  graph_step "embed"%string (_node_embed w) "retrieve"%string.
  graph_step "retrieve"%string (_node_retrieve w) "prompt"%string.
  graph_step "prompt"%string _node_prompt "generate"%string.
  graph_step "generate"%string (_node_generate w) END.
  now rewrite run_from_end.
Qed.

Lemma invoke_prep w s h :
  invoke (LAW_GRAPH_PREP w) s h
  = (s1 <- _node_embed w s ;;
     s2 <- _node_retrieve w s1 ;;
     s3 <- _node_prompt s2 ;;
     ret s3) h.
Proof.
  unfold invoke, LAW_GRAPH_PREP, recursion_limit.
  change (entry_point (_build_graph_prep w)) with (Some "embed"%string). cbv iota.
  graph_step "embed"%string (_node_embed w) "retrieve"%string.
  graph_step "retrieve"%string (_node_retrieve w) "prompt"%string.
  graph_step "prompt"%string _node_prompt END.
  now rewrite run_from_end.
Qed.

Lemma path_full w : path (LAW_GRAPH_FULL w) = ["embed"; "retrieve"; "prompt"; "generate"]%string.
Proof. reflexivity. Qed.

Lemma path_prep w : path (LAW_GRAPH_PREP w) = ["embed"; "retrieve"; "prompt"]%string.
Proof. reflexivity. Qed.

(** Passing the active collection and passing none select the same collection. *)
Lemma qdrant_search_laws_default w vec k :
  qdrant_search_laws w vec k (Some (_active_collection_name w))
  = qdrant_search_laws w vec k None.
Proof.
  unfold qdrant_search_laws. destruct (_active_collection_name w); reflexivity.
Qed.

(** The prompt node builds the pair [_build_prompts] builds. *)
Lemma node_prompt_build_prompts s q h :
  State.question s = Some q ->
  _node_prompt s h
  = (Ok (set_user_prompt (snd (_build_prompts q (or_empty (State.context s))))
          (set_system_prompt (fst (_build_prompts q (or_empty (State.context s)))) s)), h).
Proof.
  intros H. unfold _node_prompt, _build_prompts, system_prompt_text. rewrite H.
  cbv [getitem bind ret fst snd]. reflexivity.
Qed.

(** Each node and each entry operation, as a case analysis on what the
    services answer. *)
Lemma node_embed_run w s q h :
  State.question s = Some q ->
  _node_embed w s h =
  match embed_texts w [q] h with
  | (Ok (vec :: _), h1) => (Ok (set_embed_ms (elapsed_ms w h1) (set_query_vec vec s)), h1)
  | (Ok [], h1) => (Raise IndexError, h1)
  | (Raise e, h1) => (Raise e, h1)
  end.
Proof.
  intros H. unfold _node_embed. rewrite H. cbv [getitem bind ret].
  destruct (embed_texts w [q] h) as [[[|vec vecs]|e] h1]; reflexivity.
Qed.

Lemma node_retrieve_run w s vec h :
  State.query_vec s = Some vec ->
  _node_retrieve w s h =
  match qdrant_search_laws w vec (match State.top_k s with Some k => k | None => 5 end)
          None h with
  | (Ok pts, h2) =>
      (Ok (set_context (build_context_from_points pts 900)
             (set_qdrant_ms (elapsed_ms w h2) (set_points pts s))), h2)
  | (Raise e, h2) => (Raise e, h2)
  end.
Proof.
  intros H. unfold _node_retrieve. rewrite H. cbv [getitem bind ret].
  destruct (qdrant_search_laws w vec _ None h) as [[pts|e] h2]; reflexivity.
Qed.

Lemma node_generate_run w s sp up h :
  State.system_prompt s = Some sp -> State.user_prompt s = Some up ->
  _node_generate w s h =
  match call_openai_chat w sp up h with
  | (Ok a, h3) => (Ok (set_answer a s), h3)
  | (Raise e, h3) => (Raise e, h3)
  end.
Proof.
  intros Hs Hu. unfold _node_generate. rewrite Hs, Hu. cbv [getitem bind ret].
  destruct (call_openai_chat w sp up h) as [[a|e] h3]; reflexivity.
Qed.

Lemma search_law_with_answer_run w q k h :
  search_law_with_answer w q k h =
  match embed_texts w [q] h with
  | (Ok (vec :: _), h1) =>
      match qdrant_search_laws w vec k (Some (_active_collection_name w)) h1 with
      | (Ok pts, h2) =>
          match call_openai_chat w
                  (fst (_build_prompts q (build_context_from_points pts 900)))
                  (snd (_build_prompts q (build_context_from_points pts 900))) h2 with
          | (Ok a, h3) => (Ok (a, pts), h3)
          | (Raise e, h3) => (Raise e, h3)
          end
      | (Raise e, h2) => (Raise e, h2)
      end
  | (Ok [], h1) => (Raise IndexError, h1)
  | (Raise e, h1) => (Raise e, h1)
  end.
Proof.
  unfold search_law_with_answer. cbv [bind ret].
  destruct (embed_texts w [q] h) as [[[|vec vecs]|e] h1]; reflexivity.
Qed.

Lemma stream_law_answer_run w q k h :
  stream_law_answer w q k h =
  match embed_texts w [q] h with
  | (Ok (vec :: _), h1) =>
      match qdrant_search_laws w vec k (Some (_active_collection_name w)) h1 with
      | (Ok pts, h2) =>
          (Ok (call_openai_chat_stream
                 (fst (_build_prompts q (build_context_from_points pts 900)))
                 (snd (_build_prompts q (build_context_from_points pts 900))),
               pts), h2)
      | (Raise e, h2) => (Raise e, h2)
      end
  | (Ok [], h1) => (Raise IndexError, h1)
  | (Raise e, h1) => (Raise e, h1)
  end.
Proof.
  unfold stream_law_answer. cbv [bind ret].
  destruct (embed_texts w [q] h) as [[[|vec vecs]|e] h1]; reflexivity.
Qed.

Lemma bind_run {A B} (c : M A) (k : A -> M B) h :
  bind c k h = match c h with (Ok a, h') => k a h' | (Raise e, h') => (Raise e, h') end.
Proof. reflexivity. Qed.

(** ** C1: the direct pipeline and the graph pipeline agree *)

(** C1: for every question and top_k, and every deterministic behaviour of
    the embedding, vector-search and generation services, the graph pipeline
    and the direct-call pipeline return the same (answer, neighbour list)
    pair, or raise the same exception, after issuing the same requests. *)
Theorem graph_pipeline_agrees_with_direct (w : World) (question : str) (top_k : Z)
    (h : History) :
  answer_law_question_graph w question top_k h = search_law_with_answer w question top_k h.
Proof.
  rewrite search_law_with_answer_run.
  unfold answer_law_question_graph. rewrite bind_run, invoke_full.
  rewrite bind_run, (node_embed_run w _ question) by reflexivity.
  destruct (embed_texts w [question] h) as [[[|vec vecs]|e] h1]; try reflexivity.
  rewrite bind_run, (node_retrieve_run w _ vec) by reflexivity.
  cbn [set_embed_ms set_query_vec initial_state State.top_k].
  rewrite qdrant_search_laws_default.
  destruct (qdrant_search_laws w vec top_k None h1) as [[pts|e] h2]; [|reflexivity].
  rewrite bind_run, (node_prompt_build_prompts _ question) by reflexivity.
  rewrite bind_run.
  rewrite (node_generate_run w _
             (fst (_build_prompts question (build_context_from_points pts 900)))
             (snd (_build_prompts question (build_context_from_points pts 900))))
    by reflexivity.
  destruct (call_openai_chat w _ _ h2) as [[a|e] h3]; reflexivity.
Qed.

(** The streaming variants agree in the same way. *)
Lemma graph_stream_agrees_with_direct (w : World) (question : str) (top_k : Z)
    (h : History) :
  stream_law_answer_graph w question top_k h = stream_law_answer w question top_k h.
Proof.
  rewrite stream_law_answer_run.
  unfold stream_law_answer_graph. rewrite bind_run, invoke_prep.
  rewrite bind_run, (node_embed_run w _ question) by reflexivity.
  destruct (embed_texts w [question] h) as [[[|vec vecs]|e] h1]; try reflexivity.
  rewrite bind_run, (node_retrieve_run w _ vec) by reflexivity.
  cbn [set_embed_ms set_query_vec initial_state State.top_k].
  rewrite qdrant_search_laws_default.
  destruct (qdrant_search_laws w vec top_k None h1) as [[pts|e] h2]; [|reflexivity].
  rewrite bind_run, (node_prompt_build_prompts _ question) by reflexivity.
  reflexivity.
Qed.

(** ** C2: the synchronous and the streaming operation retrieve alike *)

(** C2: for every question and top_k, under the same deterministic embedding
    and vector-search services, the streaming operation and the synchronous
    operation retrieve the same neighbour list.  When the streaming operation
    returns neighbours, the synchronous one has issued the same requests up to
    that point and returns that same list with the generated answer (or fails
    in generation only); when the streaming operation fails before returning,
    the synchronous one fails alike. *)
Theorem sync_and_stream_retrieve_same_neighbours (w : World) (query : str) (top_k : Z)
    (h : History) :
  match stream_law_answer w query top_k h with
  | (Ok (gen, pts), h2) =>
      search_law_with_answer w query top_k h =
      match call_openai_chat w
              (fst (_build_prompts query (build_context_from_points pts 900)))
              (snd (_build_prompts query (build_context_from_points pts 900))) h2 with
      | (Ok a, h3) => (Ok (a, pts), h3)
      | (Raise e, h3) => (Raise e, h3)
      end
  | (Raise e, h2) => search_law_with_answer w query top_k h = (Raise e, h2)
  end.
Proof.
  rewrite stream_law_answer_run, search_law_with_answer_run.
  destruct (embed_texts w [query] h) as [[[|vec vecs]|e] h1]; try reflexivity.
  destruct (qdrant_search_laws w vec top_k _ h1) as [[pts|e] h2]; reflexivity.
Qed.

(** ** C4: an empty retrieval *)

(** C4, the claim as stated fails: with no neighbour the context block is
    the empty string, and the user prompt sent to the generation service has
    nothing between its two fixed sentences; no notice about missing documents
    is written. *)
Lemma empty_retrieval_context_is_blank :
  build_context_from_points [] 900 = []
  /\ truthy (build_context_from_points [] 900) = false
  /\ omap user_prompt_sent (snd (search_law_with_answer no_hits_world example_question 3 []))
     = [lit "질문: 전세보증금을 못 받았어요" ++ NL ++ NL
        ++ lit "아래는 참고 문서(근거)입니다:" ++ NL ++ NL ++ NL
        ++ lit "요구 형식대로 답해주세요. 각 문장은 가능한 한 [문서 n] 근거를 붙이세요."].
Proof.
  split; [vm_compute; reflexivity|].
  split; [vm_compute; reflexivity|].
  vm_compute; reflexivity.
Qed.

Example lit_query_label : lit "질문: " = [51656; 47928; 58; 32]%N.
Proof. reflexivity. Qed.

(** C4 (amended): for every question, when the vector search returns an
    empty neighbour list the context is the empty string, the prompt pair is
    non-empty (the fixed system prompt, and the user prompt with an empty
    context block), and nothing raises between retrieval and generation: the
    synchronous operation goes on to the generation call with that prompt pair
    and the streaming operation returns its generator and the empty list. *)
Theorem empty_retrieval_still_prompts (w : World) (query : str) (top_k : Z)
    (h h1 h2 : History) (vec : vector) (vecs : list vector) :
  embed_texts w [query] h = (Ok (vec :: vecs), h1) ->
  qdrant_search_laws w vec top_k (Some (_active_collection_name w)) h1 = (Ok [], h2) ->
  build_context_from_points [] 900 = []
  /\ _build_prompts query (build_context_from_points [] 900)
     = (system_prompt_text, empty_context_prompt query)
  /\ truthy system_prompt_text = true
  /\ truthy (empty_context_prompt query) = true
  /\ search_law_with_answer w query top_k h
     = match call_openai_chat w system_prompt_text (empty_context_prompt query) h2 with
       | (Ok a, h3) => (Ok (a, []), h3)
       | (Raise e, h3) => (Raise e, h3)
       end
  /\ stream_law_answer w query top_k h
     = (Ok (call_openai_chat_stream system_prompt_text (empty_context_prompt query), []), h2).
Proof.
  intros He Hs.
  assert (Hctx : build_context_from_points [] 900 = []) by reflexivity.
  assert (Hp : _build_prompts query (build_context_from_points [] 900)
               = (system_prompt_text, empty_context_prompt query)).
  { rewrite Hctx. unfold _build_prompts, empty_context_prompt.
    cbv zeta. rewrite app_nil_l. reflexivity. }
  split; [exact Hctx|]. split; [exact Hp|].
  split; [vm_compute; reflexivity|].
  split; [unfold empty_context_prompt; rewrite lit_query_label; reflexivity|].
  split.
  - rewrite search_law_with_answer_run, He, Hs, Hp. cbn [fst snd]. reflexivity.
  - rewrite stream_law_answer_run, He, Hs, Hp. cbn [fst snd]. reflexivity.
Qed.

Lemma empty_retrieval_example :
  let h1 := snd (embed_texts no_hits_world [example_question] []) in
  let h2 := snd (qdrant_search_laws no_hits_world [0.5%float; 0.25%float] 3
                   (Some (_active_collection_name no_hits_world)) h1) in
  search_law_with_answer no_hits_world example_question 3 []
  = match call_openai_chat no_hits_world system_prompt_text
            (empty_context_prompt example_question) h2 with
    | (Ok a, h3) => (Ok (a, []), h3)
    | (Raise e, h3) => (Raise e, h3)
    end
  /\ stream_law_answer no_hits_world example_question 3 []
     = (Ok (call_openai_chat_stream system_prompt_text
              (empty_context_prompt example_question), []), h2).
Proof.
  intros h1 h2.
  apply (empty_retrieval_still_prompts no_hits_world example_question 3 [] h1 h2
           [0.5%float; 0.25%float] []).
  - vm_compute. reflexivity.
  - vm_compute. reflexivity.
Defined.

(** ** C9: the token stream *)

Lemma nonempty_fragments_cons chunk rest :
  nonempty_fragments (chunk :: rest)
  = match chunk_delta chunk with
    | Some (c :: d) => (c :: d) :: nonempty_fragments rest
    | _ => nonempty_fragments rest
    end.
Proof.
  destruct chunk as [chs]. destruct chs as [|[dl] chs]; [reflexivity|].
  destruct dl as [[ct]|]; [|reflexivity].
  destruct ct as [[|c d]|]; reflexivity.
Qed.

(** The loop stops at the next non-empty fragment, or at the end of the stream. *)
Lemma stream_loop_cases pending :
  (stream_loop pending = (None, GenFinished) /\ nonempty_fragments pending = [])
  \/ (exists d rest,
        stream_loop pending = (Some d, GenSuspended rest)
        /\ nonempty_fragments pending = d :: nonempty_fragments rest
        /\ (length rest < length pending)%nat).
Proof.
  induction pending as [|chunk pending IH]; [now left|].
  rewrite nonempty_fragments_cons. cbn [stream_loop].
  destruct (chunk_delta chunk) as [[|c d]|].
  - destruct IH as [IH | (d & rest & H1 & H2 & H3)]; [now left|].
    right. exists d, rest. repeat split; [assumption | assumption | simpl; lia].
  - right. exists (c :: d), pending. repeat split. simpl. lia.
  - destruct IH as [IH | (d & rest & H1 & H2 & H3)]; [now left|].
    right. exists d, rest. repeat split; [assumption | assumption | simpl; lia].
Qed.







Example stream_example_fragments :
  fst (gen_drain example_world 7
         (call_openai_chat_stream system_prompt_text (empty_context_prompt example_question))
         [])
  = Ok (Some [lit "안녕"; lit "하세요"]).
Proof. vm_compute. reflexivity. Qed.

(** ** What the embedding step sends *)

Lemma embed_attempts_history w key model chunk left last h :
  exists reqs,
    snd (embed_attempts w key model chunk left last h) = h ++ reqs
    /\ forallb is_embedding reqs = true.
Proof.
  revert last h. induction left as [|left IH]; intros last h.
  - exists []. rewrite app_nil_r. destruct last; split; reflexivity.
  - cbn [embed_attempts]. unfold try_except, remote.
    destruct (embeddings_reply w h key model chunk) as [data|e].
    + exists [EmbeddingsCreate key model chunk]. split; reflexivity.
    + destruct (IH (Some e) (h ++ [EmbeddingsCreate key model chunk])) as (reqs & -> & Hr).
      exists (EmbeddingsCreate key model chunk :: reqs).
      rewrite <- app_assoc. split; [reflexivity | exact Hr].
Qed.

Lemma embed_batches_history w key model retry chunks out h :
  exists reqs,
    snd (embed_batches w key model retry chunks out h) = h ++ reqs
    /\ forallb is_embedding reqs = true.
Proof.
  revert out h. induction chunks as [|chunk chunks IH]; intros out h.
  - exists []. rewrite app_nil_r. split; reflexivity.
  - cbn [embed_batches]. rewrite bind_run.
    destruct (embed_attempts_history w key model chunk retry None h) as (r1 & H1 & Hr1).
    destruct (embed_attempts w key model chunk retry None h) as [[data|e] h1];
      cbn [snd] in H1; subst h1.
    + destruct (IH (out ++ data) (h ++ r1)) as (r2 & -> & Hr2).
      exists (r1 ++ r2). rewrite app_assoc. split; [reflexivity|].
      rewrite forallb_app, Hr1, Hr2. reflexivity.
    + exists r1. split; [reflexivity | exact Hr1].
Qed.

(** The embedding step sends embeddings requests and nothing else. *)
Lemma embed_texts_history w texts h :
  exists reqs,
    snd (embed_texts w texts h) = h ++ reqs /\ forallb is_embedding reqs = true.
Proof.
  unfold embed_texts.
  destruct (decide (_embed_provider w = lit "kure")).
  - exists []. rewrite app_nil_r. split; [|reflexivity].
    unfold embed_texts_kure. destruct texts; reflexivity.
  - unfold embed_texts_openai. destruct texts as [|t texts].
    + exists []. rewrite app_nil_r. split; reflexivity.
    + rewrite bind_run. unfold _get_oai_client.
      destruct (py_or _ _) as [[|c k]|].
      * exists []. rewrite app_nil_r. split; reflexivity.
      * apply embed_batches_history.
      * exists []. rewrite app_nil_r. split; reflexivity.
Qed.

Lemma filter_search_embeddings h reqs :
  forallb is_embedding reqs = true ->
  List.filter is_search (h ++ reqs) = List.filter is_search h.
Proof.
  intros H. rewrite List.filter_app.
  replace (List.filter is_search reqs) with (@nil Request); [apply app_nil_r|].
  induction reqs as [|rq reqs IH]; [reflexivity|].
  cbn [forallb] in H. apply andb_true_iff in H as [H1 H2].
  destruct rq; try discriminate. cbn [List.filter is_search]. now apply IH.
Qed.

(** ** C8: an empty collection name *)

Lemma qdrant_search_laws_no_collection w vec k cn h :
  resolved_collection w cn = [] ->
  exists msg, qdrant_search_laws w vec k cn h = (Raise (RuntimeError msg), h).
Proof.
  intros H. unfold qdrant_search_laws.
  destruct (truthy (QDRANT_URL w)); cbn [negb].
  - change (strip match cn with Some (c :: n) => c :: n | _ => _active_collection_name w end)
      with (resolved_collection w cn).
    rewrite H. cbn [truthy negb]. now eexists.
  - now eexists.
Qed.

Lemma resolved_collection_active w :
  resolved_collection w (Some (_active_collection_name w)) = resolved_collection w None.
Proof. unfold resolved_collection. destruct (_active_collection_name w); reflexivity. Qed.

Lemma entry_no_collection w q k h :
  resolved_collection w None = [] ->
  is_raise (fst (search_law_with_answer w q k h)) = true
  /\ List.filter is_search (snd (search_law_with_answer w q k h)) = List.filter is_search h
  /\ is_raise (fst (stream_law_answer w q k h)) = true
  /\ List.filter is_search (snd (stream_law_answer w q k h)) = List.filter is_search h.
Proof.
  intros H. rewrite <- resolved_collection_active in H.
  rewrite search_law_with_answer_run, stream_law_answer_run.
  destruct (embed_texts_history w [q] h) as (reqs & Hh & Hr).
  destruct (embed_texts w [q] h) as [[[|vec vecs]|e] h1]; cbn [snd] in Hh; subst h1.
  - repeat split; try reflexivity; now apply filter_search_embeddings.
  - destruct (qdrant_search_laws_no_collection w vec k _ (h ++ reqs) H) as (msg & ->).
    repeat split; try reflexivity; now apply filter_search_embeddings.
  - repeat split; try reflexivity; now apply filter_search_embeddings.
Qed.

(** C8: for every query vector and top_k, if the collection name that
    [qdrant_search_laws] resolves is empty after trimming, the call raises a
    configuration error (a [RuntimeError]) at once, with the request history
    untouched; and nothing retries it: when that is the configured collection,
    every entry operation fails without a single search request being sent. *)
Theorem empty_collection_is_configuration_error (w : World) (query_vec : vector)
    (top_k : Z) (collection_name : option str) (h : History) :
  resolved_collection w collection_name = [] ->
  (exists msg,
     qdrant_search_laws w query_vec top_k collection_name h = (Raise (RuntimeError msg), h))
  /\ (collection_name = None \/ collection_name = Some (_active_collection_name w) ->
      forall query,
        is_raise (fst (search_law_with_answer w query top_k h)) = true
        /\ List.filter is_search (snd (search_law_with_answer w query top_k h))
           = List.filter is_search h
        /\ is_raise (fst (stream_law_answer w query top_k h)) = true
        /\ List.filter is_search (snd (stream_law_answer w query top_k h))
           = List.filter is_search h).
Proof.
  intros H. split; [now apply qdrant_search_laws_no_collection|].
  intros Hcn query. apply entry_no_collection.
  destruct Hcn as [-> | ->]; [exact H | now rewrite <- resolved_collection_active].
Qed.

Lemma empty_collection_example :
  (exists msg,
     qdrant_search_laws no_collection_world [0.5%float] 5 None []
     = (Raise (RuntimeError msg), []))
  /\ (@None str = None \/ None = Some (_active_collection_name no_collection_world) ->
      forall query,
        is_raise (fst (search_law_with_answer no_collection_world query 5 [])) = true
        /\ List.filter is_search (snd (search_law_with_answer no_collection_world query 5 []))
           = List.filter is_search []
        /\ is_raise (fst (stream_law_answer no_collection_world query 5 [])) = true
        /\ List.filter is_search (snd (stream_law_answer no_collection_world query 5 []))
           = List.filter is_search []).
Proof.
  apply (empty_collection_is_configuration_error no_collection_world [0.5%float] 5 None []).
  vm_compute. reflexivity.
Defined.

Example empty_collection_run :
  qdrant_search_laws no_collection_world [0.5%float] 5 (Some (lit "   ")) []
  = (Raise (RuntimeError
              (lit "QDRANT_COLLECTION_NAME/QDRANT_COLLECTION_OAI 가 비었습니다. .env 확인")), []).
Proof. vm_compute. reflexivity. Qed.

(** ** C6 and C7: where the bounds on the request are checked *)

Lemma post_rejected {A} (handler : Api.LawChatRequest -> M A) question top_k h :
  is_raise (LawChatRequest question top_k) = true ->
  rejected_before_any_call h (post handler question top_k h).
Proof.
  intros H. unfold post, lift. rewrite bind_run.
  destruct (LawChatRequest question top_k); [discriminate|].
  split; reflexivity.
Qed.

Lemma LawChatRequest_top_k_low question top_k :
  top_k <= 0 -> is_raise (LawChatRequest question (Some top_k)) = true.
Proof.
  intros H. unfold LawChatRequest.
  destruct question as [q|]; [|reflexivity].
  destruct (len q <? 1); [reflexivity|].
  replace (top_k <? 1) with true by (symmetry; apply Z.ltb_lt; lia).
  reflexivity.
Qed.

Lemma LawChatRequest_question_empty top_k :
  is_raise (LawChatRequest (Some []) top_k) = true.
Proof. reflexivity. Qed.

(** C6, the claim as stated fails: called with top_k = 0 the synchronous
    operation raises nothing and calls all three services, and called with
    top_k = -3 the streaming operation calls the embedding and the search
    service; the value is passed on as the [limit] of the search request. *)
Lemma nonpositive_top_k_reaches_the_services :
  is_raise (fst (search_law_with_answer example_world example_question 0 [])) = false
  /\ map service_of (snd (search_law_with_answer example_world example_question 0 []))
     = [Embedding; VectorSearch; Generation]
  /\ omap search_limit (snd (search_law_with_answer example_world example_question 0 []))
     = [0]
  /\ is_raise (fst (stream_law_answer example_world example_question (-3) [])) = false
  /\ map service_of (snd (stream_law_answer example_world example_question (-3) []))
     = [Embedding; VectorSearch]
  /\ omap search_limit (snd (stream_law_answer example_world example_question (-3) []))
     = [-3]
  /\ ~ rejected_before_any_call []
         (search_law_with_answer example_world example_question 0 []).
Proof.
  split; [vm_compute; reflexivity|].
  split; [vm_compute; reflexivity|].
  split; [vm_compute; reflexivity|].
  split; [vm_compute; reflexivity|].
  split; [vm_compute; reflexivity|].
  split; [vm_compute; reflexivity|].
  intros [H _]. vm_compute in H. discriminate.
Qed.

(** C6 (amended): for every question, a request with top_k of 0 or less is
    rejected by the request model of the HTTP routes (top_k must lie in
    1..20) before the route handler, and hence any entry operation or
    service, is called; the entry operations themselves do not check top_k. *)
Theorem nonpositive_top_k_rejected_at_the_route (w : World) (question : option str)
    (top_k : Z) (h : History) :
  top_k <= 0 ->
  is_raise (LawChatRequest question (Some top_k)) = true
  /\ rejected_before_any_call h (post (chat_law w) question (Some top_k) h)
  /\ rejected_before_any_call h (post (chat_law_stream w) question (Some top_k) h)
  /\ rejected_before_any_call h (post (chat_law_graph w) question (Some top_k) h)
  /\ rejected_before_any_call h (post (chat_law_graph_stream w) question (Some top_k) h).
Proof.
  intros H. pose proof (LawChatRequest_top_k_low question top_k H) as Hr.
  repeat split; try exact Hr; now apply post_rejected.
Qed.

Lemma nonpositive_top_k_example :
  is_raise (LawChatRequest (Some example_question) (Some 0)) = true
  /\ rejected_before_any_call []
       (post (chat_law example_world) (Some example_question) (Some 0) [])
  /\ rejected_before_any_call []
       (post (chat_law_stream example_world) (Some example_question) (Some 0) [])
  /\ rejected_before_any_call []
       (post (chat_law_graph example_world) (Some example_question) (Some 0) [])
  /\ rejected_before_any_call []
       (post (chat_law_graph_stream example_world) (Some example_question) (Some 0) []).
Proof.
  apply (nonpositive_top_k_rejected_at_the_route example_world (Some example_question) 0 []).
  lia.
Defined.



(** ** C5: the state is an append-only accumulator *)

Ltac state_simpl :=
  cbn [lookup_key set_query_vec set_embed_ms set_points set_qdrant_ms set_context
       set_system_prompt set_user_prompt set_answer initial_state
       State.question State.top_k State.embed_ms State.qdrant_ms State.query_vec
       State.points State.context State.system_prompt State.user_prompt State.answer
       fmap option_fmap option_map] in *.

Ltac frame_keys :=
  split;
  [ intros k Hk; destruct k; state_simpl; try reflexivity;
    exfalso; apply Hk; cbn [writes In]; tauto
  | intros k Hk; cbn [writes In] in Hk;
    repeat (destruct Hk as [<- | Hk]; [state_simpl; eexists; reflexivity|]);
    destruct Hk ].

(** A stage that returns leaves every key outside its designated ones as it
    was, and has written each of its designated keys. *)
Lemma stage_frame w st s h :
  match stage_fn w st s h with
  | (Ok s', _) =>
      (forall k, ~ In k (writes st) -> lookup_key k s' = lookup_key k s)
      /\ (forall k, In k (writes st) -> is_Some (lookup_key k s'))
  | (Raise _, _) => True
  end.
Proof.
  destruct st; cbn [stage_fn].
  - destruct (State.question s) as [q|] eqn:Eq.
    + rewrite (node_embed_run w s q h Eq).
      destruct (embed_texts w [q] h) as [[[|vec vecs]|e] h1]; [exact I| |exact I].
      frame_keys.
    + unfold _node_embed. rewrite Eq. exact I.
  - destruct (State.query_vec s) as [vec|] eqn:Ev.
    + rewrite (node_retrieve_run w s vec h Ev).
      destruct (qdrant_search_laws w vec _ None h) as [[pts|e] h2]; [|exact I].
      frame_keys.
    + unfold _node_retrieve. rewrite Ev. exact I.
  - destruct (State.question s) as [q|] eqn:Eq.
    + rewrite (node_prompt_build_prompts s q h Eq). frame_keys.
    + unfold _node_prompt. rewrite Eq. exact I.
  - destruct (State.system_prompt s) as [sp|] eqn:Es.
    + destruct (State.user_prompt s) as [up|] eqn:Eu.
      * rewrite (node_generate_run w s sp up h Es Eu).
        destruct (call_openai_chat w sp up h) as [[a|e] h3]; [|exact I].
        frame_keys.
      * unfold _node_generate. rewrite Es, Eu. exact I.
    + unfold _node_generate. rewrite Es. exact I.
Qed.

Lemma writes_disjoint st1 st2 k : In k (writes st1) -> In k (writes st2) -> st1 = st2.
Proof.
  destruct st1, st2; cbn [writes In]; intros H1 H2; try reflexivity;
    exfalso; intuition congruence.
Qed.

Lemma writes_spare_inputs st : ~ In K_question (writes st) /\ ~ In K_top_k (writes st).
Proof. destruct st; cbn [writes In]; intuition discriminate. Qed.

(** A stage preserves a state in which none of its designated keys is set. *)
Lemma stage_preserves w st s h s' h' :
  stage_fn w st s h = (Ok s', h') ->
  (forall k, In k (writes st) -> lookup_key k s = None) ->
  preserves s s'.
Proof.
  intros Hrun Hfresh k [v Hv].
  pose proof (stage_frame w st s h) as Hf. rewrite Hrun in Hf.
  destruct Hf as [Hf _]. apply Hf. intros Hin.
  rewrite (Hfresh k Hin) in Hv. discriminate.
Qed.

Lemma run_stages_cons w st rest s h :
  run_stages w (st :: rest) s h
  = match stage_fn w st s h with
    | (Ok s', h1) =>
        match run_stages w rest s' h1 with
        | (Ok tl, h2) => (Ok (s' :: tl), h2)
        | (Raise e, h2) => (Raise e, h2)
        end
    | (Raise e, h1) => (Raise e, h1)
    end.
Proof. reflexivity. Qed.

(** Stages run in an order in which no key is designated twice, from a state
    where none of their keys is set, only ever add to the state. *)
Lemma run_stages_append_only w sts :
  NoDup (concat (map writes sts)) ->
  forall s h states h',
    (forall k, In k (concat (map writes sts)) -> lookup_key k s = None) ->
    run_stages w sts s h = (Ok states, h') ->
    append_only s states /\ length states = length sts.
Proof.
  induction sts as [|st sts IH]; intros Hnd s h states h' Hfresh Hrun.
  - inversion Hrun. split; [exact I | reflexivity].
  - rewrite run_stages_cons in Hrun.
    destruct (stage_fn w st s h) as [[s1|e] h1] eqn:Est; [|discriminate].
    destruct (run_stages w sts s1 h1) as [[tl|e] h2] eqn:Etl; [|discriminate].
    inversion Hrun; subst. cbn [concat map] in Hnd, Hfresh.
    apply NoDup_app in Hnd as (Hnd1 & Hdisj & Hnd2).
    assert (Hp : preserves s s1).
    { apply (stage_preserves w st s h s1 h1 Est).
      intros k Hk. apply Hfresh, in_or_app. now left. }
    destruct (IH Hnd2 s1 h1 tl h' ) as [Ha Hl].
    + intros k Hk.
      pose proof (stage_frame w st s h) as Hf. rewrite Est in Hf.
      destruct Hf as [Hf _]. rewrite Hf.
      * apply Hfresh, in_or_app. now right.
      * intros Hin. apply (Hdisj k); [now apply list_elem_of_In | now apply list_elem_of_In].
    + exact Etl.
    + split; [split; assumption | simpl; now rewrite Hl].
Qed.

Lemma invoke_full_stages w s h :
  invoke (LAW_GRAPH_FULL w) s h
  = match run_stages w [Embed; Retrieve; Prompt; Generate] s h with
    | (Ok states, h') => (Ok (List.last states s), h')
    | (Raise e, h') => (Raise e, h')
    end.
Proof.
  rewrite invoke_full.
  rewrite run_stages_cons, bind_run. cbn [stage_fn].
  destruct (_node_embed w s h) as [[s1|e] h1]; [|reflexivity].
  rewrite run_stages_cons, bind_run. cbn [stage_fn].
  destruct (_node_retrieve w s1 h1) as [[s2|e] h2]; [|reflexivity].
  rewrite run_stages_cons, bind_run. cbn [stage_fn].
  destruct (_node_prompt s2 h2) as [[s3|e] h3]; [|reflexivity].
  rewrite run_stages_cons, bind_run. cbn [stage_fn].
  destruct (_node_generate w s3 h3) as [[s4|e] h4]; reflexivity.
Qed.

Lemma invoke_prep_stages w s h :
  invoke (LAW_GRAPH_PREP w) s h
  = match run_stages w [Embed; Retrieve; Prompt] s h with
    | (Ok states, h') => (Ok (List.last states s), h')
    | (Raise e, h') => (Raise e, h')
    end.
Proof.
  rewrite invoke_prep.
  rewrite run_stages_cons, bind_run. cbn [stage_fn].
  destruct (_node_embed w s h) as [[s1|e] h1]; [|reflexivity].
  rewrite run_stages_cons, bind_run. cbn [stage_fn].
  destruct (_node_retrieve w s1 h1) as [[s2|e] h2]; [|reflexivity].
  rewrite run_stages_cons, bind_run. cbn [stage_fn].
  destruct (_node_prompt s2 h2) as [[s3|e] h3]; reflexivity.
Qed.

Ltac distinct_keys :=
  repeat (apply NoDup_cons_2;
          [ intros Hin;
            repeat (apply elem_of_cons in Hin as [Hin | Hin]; [discriminate|]);
            inversion Hin
          | ]);
  apply NoDup_nil_2.

Lemma full_run_append_only w question top_k h :
  match run_stages w [Embed; Retrieve; Prompt; Generate] (initial_state question top_k) h with
  | (Ok states, _) =>
      append_only (initial_state question top_k) states /\ length states = 4%nat
  | (Raise _, _) => True
  end.
Proof.
  destruct (run_stages w _ _ h) as [[states|e] h'] eqn:E; [|exact I].
  apply (run_stages_append_only w [Embed; Retrieve; Prompt; Generate]) with (h := h) (h' := h').
  - cbn [concat map writes app]. distinct_keys.
  - intros k Hk. cbn [concat map writes app In] in Hk.
    repeat (destruct Hk as [<- | Hk]; [reflexivity|]). destruct Hk.
  - exact E.
Qed.

Lemma prep_run_append_only w question top_k h :
  match run_stages w [Embed; Retrieve; Prompt] (initial_state question top_k) h with
  | (Ok states, _) =>
      append_only (initial_state question top_k) states /\ length states = 3%nat
  | (Raise _, _) => True
  end.
Proof.
  destruct (run_stages w _ _ h) as [[states|e] h'] eqn:E; [|exact I].
  apply (run_stages_append_only w [Embed; Retrieve; Prompt]) with (h := h) (h' := h').
  - cbn [concat map writes app]. distinct_keys.
  - intros k Hk. cbn [concat map writes app In] in Hk.
    repeat (destruct Hk as [<- | Hk]; [reflexivity|]). destruct Hk.
  - exact E.
Qed.

(** C5: every stage of the graph pipeline writes its own designated keys and
    leaves every other key of the state as it was; no key has two writers and
    none writes the caller's [question] and [top_k]; both compiled graphs run
    each of their stages once, in the order embed, retrieve, prompt
    (, generate); so along a run from the initial state every key, once set,
    keeps its value in all later states. *)
Theorem stages_write_once (w : World) :
  (forall st s h,
     match stage_fn w st s h with
     | (Ok s', _) =>
         (forall k, ~ In k (writes st) -> lookup_key k s' = lookup_key k s)
         /\ (forall k, In k (writes st) -> is_Some (lookup_key k s'))
     | (Raise _, _) => True
     end)
  /\ (forall st1 st2 k, In k (writes st1) -> In k (writes st2) -> st1 = st2)
  /\ (forall st, ~ In K_question (writes st) /\ ~ In K_top_k (writes st))
  /\ path (LAW_GRAPH_FULL w) = map stage_name [Embed; Retrieve; Prompt; Generate]
  /\ path (LAW_GRAPH_PREP w) = map stage_name [Embed; Retrieve; Prompt]
  /\ (forall s h,
        invoke (LAW_GRAPH_FULL w) s h
        = match run_stages w [Embed; Retrieve; Prompt; Generate] s h with
          | (Ok states, h') => (Ok (List.last states s), h')
          | (Raise e, h') => (Raise e, h')
          end)
  /\ (forall s h,
        invoke (LAW_GRAPH_PREP w) s h
        = match run_stages w [Embed; Retrieve; Prompt] s h with
          | (Ok states, h') => (Ok (List.last states s), h')
          | (Raise e, h') => (Raise e, h')
          end)
  /\ (forall question top_k h,
        match run_stages w [Embed; Retrieve; Prompt; Generate]
                (initial_state question top_k) h with
        | (Ok states, _) =>
            append_only (initial_state question top_k) states /\ length states = 4%nat
        | (Raise _, _) => True
        end)
  /\ (forall question top_k h,
        match run_stages w [Embed; Retrieve; Prompt] (initial_state question top_k) h with
        | (Ok states, _) =>
            append_only (initial_state question top_k) states /\ length states = 3%nat
        | (Raise _, _) => True
        end).
Proof.
  split; [apply stage_frame|].
  split; [apply writes_disjoint|].
  split; [apply writes_spare_inputs|].
  split; [apply path_full|].
  split; [apply path_prep|].
  split; [apply invoke_full_stages|].
  split; [apply invoke_prep_stages|].
  split; [apply full_run_append_only | apply prep_run_append_only].
Qed.

Lemma stages_example :
  is_raise (fst (run_stages example_world [Embed; Retrieve; Prompt; Generate]
                   (initial_state example_question 3) [])) = false
  /\ match run_stages example_world [Embed; Retrieve; Prompt; Generate]
             (initial_state example_question 3) [] with
     | (Ok states, _) =>
         append_only (initial_state example_question 3) states /\ length states = 4%nat
     | (Raise _, _) => True
     end.
Proof.
  split; [vm_compute; reflexivity|].
  pose proof (stages_write_once example_world) as (_ & _ & _ & _ & _ & _ & _ & H & _).
  exact (H example_question 3 []).
Defined.

Example stages_example_populated :
  populated (initial_state example_question 3) = [K_question; K_top_k]
  /\ match run_stages example_world [Embed; Retrieve; Prompt; Generate]
             (initial_state example_question 3) [] with
     | (Ok states, _) =>
         map populated states
         = [[K_question; K_top_k; K_embed_ms; K_query_vec];
            [K_question; K_top_k; K_embed_ms; K_qdrant_ms; K_query_vec; K_points; K_context];
            [K_question; K_top_k; K_embed_ms; K_qdrant_ms; K_query_vec; K_points; K_context;
             K_system_prompt; K_user_prompt];
            all_keys]
     | (Raise _, _) => False
     end.
Proof. split; vm_compute; reflexivity. Qed.

(* ================================================================== *)
(** * Part III. Further properties of the code *)
(* ================================================================== *)

(** ** More on strings *)

Lemma lstrip_by_snoc_keep f l c :
  f c = false -> lstrip_by f (l ++ [c]) = lstrip_by f l ++ [c].
Proof.
  intros H. induction l as [|x l IH]; simpl; [now rewrite H|].
  destruct (f x); [exact IH | reflexivity].
Qed.

Lemma rstrip_by_cons_keep f c s : f c = false -> rstrip_by f (c :: s) = c :: rstrip_by f s.
Proof.
  intros H. unfold rstrip_by. simpl rev.
  rewrite lstrip_by_snoc_keep by exact H.
  rewrite rev_app_distr. reflexivity.
Qed.

Lemma strip_starts s : strip s = [] \/ starts_visible (strip s).
Proof.
  unfold strip.
  destruct (lstrip_by_shape isspace s) as [E | (c & r & E & Hc)]; rewrite E.
  - now left.
  - right. rewrite rstrip_by_cons_keep by exact Hc. now exists c, (rstrip_by isspace r).
Qed.

Lemma strip_fixed s : starts_visible s -> ends_visible s -> strip s = s.
Proof.
  intros (c & r & -> & Hc) (r' & c' & E & Hc').
  unfold strip. rewrite lstrip_by_keep by exact Hc.
  rewrite E. now apply rstrip_by_keep.
Qed.

Lemma strip_idempotent s : strip (strip s) = strip s.
Proof.
  destruct (strip_starts s) as [E | Hs]; [now rewrite E|].
  destruct (strip_shape s) as [E | He]; [now rewrite E|].
  now apply strip_fixed.
Qed.

Lemma in_lstrip_by f x s : In x (lstrip_by f s) -> In x s.
Proof.
  induction s as [|c s IH]; simpl; [tauto|].
  destruct (f c); [intros H; right; now apply IH | tauto].
Qed.

Lemma in_strip x s : In x (strip s) -> In x s.
Proof.
  unfold strip, rstrip_by. intros H.
  apply in_rev, in_lstrip_by, in_rev in H. revert H. apply in_lstrip_by.
Qed.

Lemma one_line_strip s : one_line s -> one_line (strip s).
Proof. unfold one_line. intros H Hin. apply H. now apply in_strip. Qed.

Lemma one_line_replace s : one_line (replace_nl_space s).
Proof.
  unfold one_line, replace_nl_space. intros H.
  apply in_map_iff in H as (c & Hc & _).
  destruct (N.eqb_spec c 10); [discriminate | congruence].
Qed.

Lemma replace_one_line s : one_line s -> replace_nl_space s = s.
Proof.
  unfold one_line, replace_nl_space. induction s as [|c s IH]; intros H; [reflexivity|].
  simpl. destruct (N.eqb_spec c 10) as [->|_].
  - exfalso. apply H. now left.
  - rewrite IH; [reflexivity|]. intros Hin. apply H. now right.
Qed.

(** ** app/ingestion/embeddings.py: cleaning, batching, retrying *)

Lemma clean_text_cases t :
  (strip (replace_nl_space t) = [] /\ clean_text t = [32%N])
  \/ (strip (replace_nl_space t) <> [] /\ clean_text t = strip (replace_nl_space t)).
Proof.
  unfold clean_text. cbv zeta.
  destruct (strip (replace_nl_space t)) as [|c s]; [now left | right].
  split; [discriminate | reflexivity].
Qed.

Lemma clean_text_is_sendable t : sendable (clean_text t).
Proof.
  destruct (clean_text_cases t) as [[_ ->] | [Hne ->]].
  - split; [discriminate|]. unfold one_line. simpl. intuition discriminate.
  - split; [exact Hne|]. apply one_line_strip, one_line_replace.
Qed.

(** X1: the text sent for embedding is never empty and has no line feed, and
    cleaning a cleaned text changes nothing. *)
Theorem clean_text_sendable_idempotent (t : str) :
  sendable (clean_text t) /\ clean_text (clean_text t) = clean_text t.
Proof.
  split; [apply clean_text_is_sendable|].
  destruct (clean_text_cases t) as [[_ E] | [Hne E]]; rewrite E.
  - reflexivity.
  - unfold clean_text. cbv zeta.
    rewrite replace_one_line by apply one_line_strip, one_line_replace.
    rewrite strip_idempotent.
    destruct (strip (replace_nl_space t)); [congruence | reflexivity].
Qed.

Lemma batches_concat {A} (n size : nat) (l : list A) :
  (1 <= size)%nat -> (length l <= n)%nat -> concat (batches n size l) = l.
Proof.
  intros Hs. revert l. induction n as [|n IH]; intros l Hl.
  - destruct l; [reflexivity | simpl in Hl; lia].
  - destruct l as [|x l]; [reflexivity|].
    cbn [batches concat]. rewrite IH; [apply firstn_skipn|].
    rewrite length_skipn. simpl in *. lia.
Qed.

Lemma batches_lengths {A} (n size : nat) (l : list A) :
  (1 <= size)%nat -> Forall (fun b => (1 <= length b <= size)%nat) (batches n size l).
Proof.
  intros Hs. revert l. induction n as [|n IH]; intros l; [constructor|].
  destruct l as [|x l]; [constructor|].
  cbn [batches]. constructor; [|apply IH].
  rewrite length_firstn. simpl length. lia.
Qed.

(** X2: with a batch size of at least 1, the batches hold every text exactly
    once and in order, and each batch has between 1 and [size] texts. *)
Theorem batches_partition {A} (size : nat) (l : list A) :
  (1 <= size)%nat ->
  concat (batches (length l) size l) = l
  /\ Forall (fun b => (1 <= length b <= size)%nat) (batches (length l) size l).
Proof.
  intros Hs. split; [now apply batches_concat | now apply batches_lengths].
Qed.

Lemma batches_partition_example :
  concat (batches (length [1; 2; 3; 4; 5]%nat) 2 [1; 2; 3; 4; 5]%nat) = [1; 2; 3; 4; 5]%nat
  /\ Forall (fun b => (1 <= length b <= 2)%nat)
       (batches (length [1; 2; 3; 4; 5]%nat) 2 [1; 2; 3; 4; 5]%nat).
Proof. apply (batches_partition 2 [1; 2; 3; 4; 5]%nat). lia. Defined.

Example batches_example :
  batches 5 2 [1; 2; 3; 4; 5]%nat = [[1; 2]; [3; 4]; [5]]%nat.
Proof. reflexivity. Qed.

Lemma embed_attempts_repeat w key model chunk left last h :
  exists k,
    (k <= left)%nat
    /\ snd (embed_attempts w key model chunk left last h)
       = h ++ repeat (EmbeddingsCreate key model chunk) k.
Proof.
  revert last h. induction left as [|left IH]; intros last h.
  - exists 0%nat. split; [lia|]. simpl repeat. rewrite app_nil_r.
    destruct last; reflexivity.
  - cbn [embed_attempts]. unfold try_except, remote.
    destruct (embeddings_reply w h key model chunk) as [data|e].
    + exists 1%nat. split; [lia | reflexivity].
    + destruct (IH (Some e) (h ++ [EmbeddingsCreate key model chunk])) as (k & Hk & ->).
      exists (S k). split; [lia|]. rewrite <- app_assoc. reflexivity.
Qed.

Lemma embed_batches_requests w key model retry chunks out h :
  exists reqs,
    snd (embed_batches w key model retry chunks out h) = h ++ reqs
    /\ Forall (fun rq => exists chunk, In chunk chunks /\ rq = EmbeddingsCreate key model chunk)
         reqs
    /\ (length reqs <= retry * length chunks)%nat.
Proof.
  revert out h. induction chunks as [|chunk chunks IH]; intros out h.
  - exists []. rewrite app_nil_r. repeat split; [constructor | simpl; lia].
  - cbn [embed_batches]. rewrite bind_run.
    destruct (embed_attempts_repeat w key model chunk retry None h) as (k & Hk & H1).
    assert (Hrep : Forall (fun rq => exists c, In c (chunk :: chunks)
                                     /\ rq = EmbeddingsCreate key model c)
                     (repeat (EmbeddingsCreate key model chunk) k)).
    { apply List.Forall_forall. intros rq Hin. apply repeat_spec in Hin.
      exists chunk. split; [now left | exact Hin]. }
    destruct (embed_attempts w key model chunk retry None h) as [[data|e] h1];
      cbn [snd] in H1; subst h1.
    + destruct (IH (out ++ data) (h ++ repeat (EmbeddingsCreate key model chunk) k))
        as (r2 & -> & Hall & Hlen).
      exists (repeat (EmbeddingsCreate key model chunk) k ++ r2).
      rewrite app_assoc. split; [reflexivity|]. split.
      * apply Forall_app. split; [exact Hrep|].
        eapply List.Forall_impl; [|exact Hall].
        intros rq (c & Hc & ->). exists c. split; [now right | reflexivity].
      * rewrite length_app, repeat_length. simpl length. nia.
    + exists (repeat (EmbeddingsCreate key model chunk) k).
      split; [reflexivity|]. split; [exact Hrep|].
      rewrite repeat_length. simpl length. nia.
Qed.

Lemma in_batches {A} (n size : nat) (l : list A) b x :
  In b (batches n size l) -> In x b -> In x l.
Proof.
  revert l. induction n as [|n IH]; intros l Hb Hx; [destruct Hb|].
  destruct l as [|y l]; [destruct Hb|].
  cbn [batches] in Hb. destruct Hb as [<- | Hb].
  - eapply in_firstn, Hx.
  - specialize (IH _ Hb Hx). rewrite <- (firstn_skipn size (y :: l)).
    apply in_or_app. now right.
Qed.

(** X3: every request [embed_texts_openai] sends is an embeddings request
    with between 1 and [request_batch_size] texts, none of them empty and none
    with a line feed; in total it sends at most [retry] times the number of
    batches. *)
Theorem embed_requests_well_formed (w : World) (texts : list str)
    (request_batch_size retry : nat) (h : History) :
  (1 <= request_batch_size)%nat ->
  exists reqs,
    snd (embed_texts_openai w texts request_batch_size retry h) = h ++ reqs
    /\ Forall (fun rq => is_embedding rq = true
                         /\ well_formed_embedding request_batch_size rq) reqs
    /\ (length reqs
        <= retry * length (batches (length texts) request_batch_size (map clean_text texts)))%nat.
Proof.
  intros Hs. unfold embed_texts_openai.
  destruct texts as [|t texts].
  { exists []. rewrite app_nil_r. repeat split; [constructor | simpl; lia]. }
  rewrite bind_run. unfold _get_oai_client.
  destruct (py_or _ _) as [[|c k]|].
  - exists []. rewrite app_nil_r. repeat split; [constructor | simpl; lia].
  - cbv [ret].
    destruct (embed_batches_requests w (c :: k) (_oai_embed_model w) retry
                (batches (length (map clean_text (t :: texts))) request_batch_size
                   (map clean_text (t :: texts))) [] h) as (reqs & Hh & Hall & Hlen).
    exists reqs. split; [exact Hh|]. split.
    + eapply List.Forall_impl; [|exact Hall].
      intros rq (chunk & Hin & ->). split; [reflexivity|]. cbn [well_formed_embedding].
      split.
      * pose proof (batches_lengths (length (map clean_text (t :: texts)))
                      request_batch_size (map clean_text (t :: texts)) Hs) as Hl.
        rewrite List.Forall_forall in Hl. exact (Hl chunk Hin).
      * apply List.Forall_forall. intros x Hx.
        pose proof (in_batches _ _ _ _ _ Hin Hx) as Hc.
        apply in_map_iff in Hc as (t0 & <- & _). apply clean_text_is_sendable.
    + rewrite length_map in Hlen. exact Hlen.
  - exists []. rewrite app_nil_r. repeat split; [constructor | simpl; lia].
Qed.

Lemma embed_requests_example :
  exists reqs,
    snd (embed_texts_openai failing_world [lit "a"; []; lit "b"] 2 3 []) = [] ++ reqs
    /\ Forall (fun rq => is_embedding rq = true /\ well_formed_embedding 2 rq) reqs
    /\ (length reqs
        <= 3 * length (batches (length [lit "a"; []; lit "b"]) 2
                         (map clean_text [lit "a"; []; lit "b"])))%nat.
Proof. apply (embed_requests_well_formed failing_world [lit "a"; []; lit "b"] 2 3 []). lia. Defined.

Lemma embed_attempts_all_fail w key model chunk e left last h :
  (forall h', embeddings_reply w h' key model chunk = Raise e) ->
  embed_attempts w key model chunk left last h
  = (match (match left with O => last | S _ => Some e end) with
     | Some x => Raise (RuntimeError (lit "OpenAI embeddings 실패: " ++ exn_str x))
     | None => Ok []
     end,
     h ++ repeat (EmbeddingsCreate key model chunk) left).
Proof.
  intros Hfail. revert last h. induction left as [|left IH]; intros last h.
  - simpl repeat. rewrite app_nil_r. destruct last; reflexivity.
  - cbn [embed_attempts]. unfold try_except, remote. rewrite Hfail.
    rewrite IH. cbn [repeat]. rewrite <- app_assoc. cbn [app].
    destruct left; reflexivity.
Qed.

(** X4: when the service refuses every attempt on the first batch,
    [embed_texts_openai] gives up after exactly [retry] identical requests for
    that batch, sends nothing for the later batches, and raises a
    [RuntimeError] that carries the last error's text. *)
Theorem embed_gives_up_after_retries (w : World) (t : str) (texts : list str)
    (request_batch_size retry : nat) (key : str) (e : exn) (h : History) :
  embedding_api_key w = Some key -> key <> [] ->
  (1 <= request_batch_size)%nat -> (1 <= retry)%nat ->
  (forall h', embeddings_reply w h' key (_oai_embed_model w)
                (firstn request_batch_size (map clean_text (t :: texts))) = Raise e) ->
  embed_texts_openai w (t :: texts) request_batch_size retry h
  = (Raise (RuntimeError (lit "OpenAI embeddings 실패: " ++ exn_str e)),
     h ++ repeat (EmbeddingsCreate key (_oai_embed_model w)
                    (firstn request_batch_size (map clean_text (t :: texts)))) retry).
Proof.
  intros Hkey Hne Hs Hr Hfail. unfold embed_texts_openai.
  rewrite bind_run. unfold _get_oai_client.
  unfold embedding_api_key in Hkey. rewrite Hkey.
  destruct key as [|c k]; [congruence|]. cbv [ret].
  cbn [map length batches embed_batches] in *. rewrite bind_run.
  rewrite (embed_attempts_all_fail w (c :: k) (_oai_embed_model w) _ e retry None h Hfail).
  destruct retry; [lia | reflexivity].
Qed.

Lemma embed_gives_up_example :
  embed_texts_openai failing_world [lit "a"; lit "b"; lit "c"] 2 3 []
  = (Raise (RuntimeError (lit "OpenAI embeddings 실패: " ++ exn_str (External (lit "429")))),
     [] ++ repeat (EmbeddingsCreate (lit "sk-test") (_oai_embed_model failing_world)
                     (firstn 2 (map clean_text [lit "a"; lit "b"; lit "c"]))) 3).
Proof.
  apply (embed_gives_up_after_retries failing_world (lit "a") [lit "b"; lit "c"] 2 3
           (lit "sk-test") (External (lit "429")) []).
  - vm_compute. reflexivity.
  - discriminate.
  - lia.
  - lia.
  - intros h'. reflexivity.
Defined.

Lemma embed_batches_all_ok w key model retry chunks out h (f : list str -> list vector) :
  (forall h' chunk, embeddings_reply w h' key model chunk = Ok (f chunk)) ->
  embed_batches w key model (S retry) chunks out h
  = (Ok (out ++ concat (map f chunks)), h ++ map (EmbeddingsCreate key model) chunks).
Proof.
  intros Hok. revert out h. induction chunks as [|chunk chunks IH]; intros out h.
  - cbn [embed_batches map concat]. now rewrite !app_nil_r.
  - cbn [embed_batches embed_attempts map concat]. rewrite bind_run.
    unfold try_except, remote. rewrite Hok, IH.
    now rewrite <- !app_assoc.
Qed.

Lemma concat_map_length {A B} (f : list A -> list B) (chunks : list (list A)) :
  (forall chunk, length (f chunk) = length chunk) ->
  length (concat (map f chunks)) = length (concat chunks).
Proof.
  intros Hf. induction chunks as [|c cs IH]; [reflexivity|].
  cbn [map concat]. now rewrite !length_app, Hf, IH.
Qed.

(** X5: when the service answers every request, [embed_texts_openai] sends
    exactly one request per batch, in batch order, and returns the replies
    concatenated; if each reply has one vector per text, so has the result. *)
Theorem embed_one_request_per_batch (w : World) (texts : list str)
    (request_batch_size retry : nat) (key : str) (f : list str -> list vector)
    (h : History) :
  embedding_api_key w = Some key -> key <> [] ->
  (1 <= request_batch_size)%nat -> (1 <= retry)%nat ->
  (forall h' chunk, embeddings_reply w h' key (_oai_embed_model w) chunk = Ok (f chunk)) ->
  embed_texts_openai w texts request_batch_size retry h
  = (Ok (concat (map f (batches (length texts) request_batch_size (map clean_text texts)))),
     h ++ map (EmbeddingsCreate key (_oai_embed_model w))
            (batches (length texts) request_batch_size (map clean_text texts)))
  /\ ((forall chunk, length (f chunk) = length chunk) ->
      length (concat (map f (batches (length texts) request_batch_size
                               (map clean_text texts))))
      = length texts).
Proof.
  intros Hkey Hne Hs Hr Hok. split.
  - unfold embed_texts_openai. destruct texts as [|t texts].
    + cbn [length batches map concat]. now rewrite app_nil_r.
    + rewrite bind_run. unfold _get_oai_client.
      unfold embedding_api_key in Hkey. rewrite Hkey.
      destruct key as [|c k]; [congruence|]. cbv [ret].
      destruct retry as [|retry]; [lia|].
      rewrite (embed_batches_all_ok w (c :: k) (_oai_embed_model w) retry _ [] h f Hok).
      now rewrite length_map.
  - intros Hf. rewrite concat_map_length by exact Hf.
    rewrite <- (length_map clean_text texts) at 1.
    rewrite batches_concat; [apply length_map | exact Hs | lia].
Qed.

Lemma embed_one_request_example :
  embed_texts_openai example_world [lit "a"; lit "b"; lit "c"] 2 3 []
  = (Ok (concat (map (map (fun _ => [0.5%float; 0.25%float]))
                   (batches (length [lit "a"; lit "b"; lit "c"]) 2
                      (map clean_text [lit "a"; lit "b"; lit "c"])))),
     [] ++ map (EmbeddingsCreate (lit "sk-test") (_oai_embed_model example_world))
             (batches (length [lit "a"; lit "b"; lit "c"]) 2
                (map clean_text [lit "a"; lit "b"; lit "c"])))
  /\ ((forall chunk : list str,
         length (map (fun _ : str => [0.5%float; 0.25%float]) chunk) = length chunk) ->
      length (concat (map (map (fun _ => [0.5%float; 0.25%float]))
                        (batches (length [lit "a"; lit "b"; lit "c"]) 2
                           (map clean_text [lit "a"; lit "b"; lit "c"]))))
      = length [lit "a"; lit "b"; lit "c"]).
Proof.
  apply (embed_one_request_per_batch example_world [lit "a"; lit "b"; lit "c"] 2 3
           (lit "sk-test") (map (fun _ => [0.5%float; 0.25%float])) []).
  - vm_compute. reflexivity.
  - discriminate.
  - lia.
  - lia.
  - intros h' chunk. reflexivity.
Defined.

(** X6: without an API key, [embed_texts_openai] still returns the empty
    list for an empty input, and raises a [RuntimeError] for any other input;
    in both cases nothing is sent. *)
Theorem embed_without_key (w : World) (texts : list str)
    (request_batch_size retry : nat) (h : History) :
  embedding_api_key w = None \/ embedding_api_key w = Some [] ->
  embed_texts_openai w texts request_batch_size retry h
  = match texts with
    | [] => (Ok [], h)
    | _ :: _ =>
        (Raise (RuntimeError
                  (lit "OPENAI_API_KEY_LAWBOT 또는 OPENAI_API_KEY 환경 변수를 설정하세요.")), h)
    end.
Proof.
  intros Hkey. unfold embed_texts_openai. destruct texts as [|t texts]; [reflexivity|].
  rewrite bind_run. unfold _get_oai_client. unfold embedding_api_key in Hkey.
  destruct Hkey as [-> | ->]; reflexivity.
Qed.

Lemma embed_without_key_example :
  embed_texts_openai bare_world [example_question] 64 3 []
  = (Raise (RuntimeError
              (lit "OPENAI_API_KEY_LAWBOT 또는 OPENAI_API_KEY 환경 변수를 설정하세요.")), []).
Proof.
  apply (embed_without_key bare_world [example_question] 64 3 []).
  left. reflexivity.
Defined.

(** X7: whatever the provider and the services do, [embed_texts] sends
    embeddings requests only, and with the [kure] provider it sends nothing. *)
Theorem embed_texts_only_embeds (w : World) (texts : list str) (h : History) :
  exists reqs,
    snd (embed_texts w texts h) = h ++ reqs
    /\ forallb is_embedding reqs = true
    /\ (_embed_provider w = lit "kure" -> reqs = []).
Proof.
  destruct (decide (_embed_provider w = lit "kure")) as [Hk | Hk].
  - exists []. rewrite app_nil_r. repeat split.
    unfold embed_texts. destruct (decide _); [|contradiction].
    unfold embed_texts_kure. destruct texts; reflexivity.
  - destruct (embed_texts_history w texts h) as (reqs & Hh & Hr).
    exists reqs. repeat split; [exact Hh | exact Hr | intros; contradiction].
Qed.

(** ** app/rag/law_rag.py: the search call *)

Lemma qdrant_search_laws_run w vec k cn h :
  truthy (QDRANT_URL w) = true -> truthy (resolved_collection w cn) = true ->
  qdrant_search_laws w vec k cn h
  = (match search_reply w h (search_url w (resolved_collection w cn)) (_qdrant_headers w)
             vec k with
     | Ok data =>
         Ok (map (neighbor_of_hit (resolved_collection w cn))
               (match data with Some rs => rs | None => [] end))
     | Raise e => Raise e
     end,
     h ++ [search_request w (resolved_collection w cn) vec k]).
Proof.
  intros Hu Hc. unfold qdrant_search_laws. rewrite Hu. cbn [negb].
  change (strip match cn with Some (c :: n) => c :: n | _ => _active_collection_name w end)
    with (resolved_collection w cn).
  rewrite Hc. cbn [negb]. rewrite bind_run. unfold remote, search_request, search_url.
  destruct (search_reply w h _ _ vec k) as [data|e]; reflexivity.
Qed.

Lemma qdrant_search_laws_history w vec k cn h :
  snd (qdrant_search_laws w vec k cn h) = h
  \/ snd (qdrant_search_laws w vec k cn h)
     = h ++ [search_request w (resolved_collection w cn) vec k].
Proof.
  destruct (truthy (QDRANT_URL w)) eqn:Hu.
  - destruct (truthy (resolved_collection w cn)) eqn:Hc.
    + right. now rewrite qdrant_search_laws_run.
    + left. destruct (resolved_collection w cn) eqn:E; [|discriminate].
      destruct (qdrant_search_laws_no_collection w vec k cn h E) as (msg & ->). reflexivity.
  - left. unfold qdrant_search_laws. now rewrite Hu.
Qed.

(** X8: when the vector store answers with a list of hits,
    [qdrant_search_laws] has sent exactly one request, with [top_k] as its
    limit, and returns one neighbour per hit in the order received, each with
    the hit's score (0.0 when absent), its id as text, the collection that
    was searched, and no answer snippet or document number. *)
Theorem search_keeps_rank_and_scores (w : World) (query_vec : vector) (top_k : Z)
    (collection_name : option str) (h : History) (hits : list ScoredPoint) :
  truthy (QDRANT_URL w) = true ->
  truthy (resolved_collection w collection_name) = true ->
  search_reply w h (search_url w (resolved_collection w collection_name)) (_qdrant_headers w)
    query_vec top_k = Ok (Some hits) ->
  exists points,
    qdrant_search_laws w query_vec top_k collection_name h
    = (Ok points, h ++ [search_request w (resolved_collection w collection_name)
                          query_vec top_k])
    /\ length points = length hits
    /\ map score points
       = map (fun r => match sp_score r with Some x => x | None => 0%float end) hits
    /\ map id points = map (fun r => id_str (sp_id r)) hits
    /\ Forall (fun p => collection p = resolved_collection w collection_name
                        /\ answerSnippet p = None /\ docNo p = None) points.
Proof.
  intros Hu Hc Hr.
  exists (map (neighbor_of_hit (resolved_collection w collection_name)) hits).
  split; [now rewrite qdrant_search_laws_run, Hr|].
  split; [apply length_map|].
  split; [now rewrite map_map|].
  split; [now rewrite map_map|].
  apply List.Forall_forall. intros p Hp. apply in_map_iff in Hp as (r & <- & _).
  repeat split.
Qed.

Lemma search_keeps_rank_example :
  exists points,
    qdrant_search_laws example_world [0.5%float] 3 None []
    = (Ok points, [] ++ [search_request example_world (resolved_collection example_world None)
                           [0.5%float] 3])
    /\ length points = length example_hits
    /\ map score points
       = map (fun r => match sp_score r with Some x => x | None => 0%float end) example_hits
    /\ map id points = map (fun r => id_str (sp_id r)) example_hits
    /\ Forall (fun p => collection p = resolved_collection example_world None
                        /\ answerSnippet p = None /\ docNo p = None) points.
Proof.
  apply (search_keeps_rank_and_scores example_world [0.5%float] 3 None [] example_hits).
  - vm_compute. reflexivity.
  - vm_compute. reflexivity.
  - reflexivity.
Defined.

Example search_scores_example :
  match qdrant_search_laws example_world [0.5%float] 3 None [] with
  | (Ok points, _) => map score points = [0.875%float; 0.75%float; 0.5%float]
  | (Raise _, _) => False
  end.
Proof. vm_compute. reflexivity. Qed.

Lemma rstrip_by_decompose f s :
  exists t, s = rstrip_by f s ++ t /\ forallb f t = true.
Proof.
  unfold rstrip_by.
  assert (G : forall l, exists t, l = t ++ lstrip_by f l /\ forallb f t = true).
  { induction l as [|c l (t & Hl & Ht)]; [now exists []|].
    simpl. destruct (f c) eqn:E.
    - exists (c :: t). split; [simpl; congruence | simpl; now rewrite E].
    - now exists []. }
  destruct (G (rev s)) as (t & Hl & Ht).
  exists (rev t). split.
  - rewrite <- rev_app_distr, <- Hl. now rewrite rev_involutive.
  - now rewrite forallb_rev.
Qed.

Lemma all_slashes t : forallb (N.eqb 47) t = true -> t = repeat 47%N (length t).
Proof.
  induction t as [|c t IH]; [reflexivity|].
  cbn [forallb length repeat]. intros H. apply andb_true_iff in H as [Hc Ht].
  apply N.eqb_eq in Hc. subst c. now rewrite <- IH.
Qed.

(** X9: the search URL is the configured base URL without its trailing
    slashes, nothing else removed, followed by the collection path; so the
    URL has no doubled slash at the join however the base URL ends. *)
Theorem search_url_drops_trailing_slashes (w : World) (col : str) :
  exists base n,
    QDRANT_URL w = base ++ repeat 47%N n
    /\ (forall r, base <> r ++ [47%N])
    /\ search_url w col = base ++ lit "/collections/" ++ col ++ lit "/points/search".
Proof.
  destruct (rstrip_by_decompose (N.eqb 47) (QDRANT_URL w)) as (t & Hs & Ht).
  exists (rstrip_slash (QDRANT_URL w)), (length t).
  split; [now rewrite <- all_slashes|]. split; [|reflexivity].
  intros r Hr. unfold rstrip_slash in *.
  destruct (rstrip_by_shape (N.eqb 47) (QDRANT_URL w)) as [E | (r' & c & E & Hc)].
  - rewrite E in Hr. destruct r; discriminate.
  - rewrite E in Hr. apply app_inj_tail in Hr as [_ ->]. discriminate.
Qed.

Example search_url_example :
  search_url example_world (lit "c") = lit "http://localhost:6333/collections/c/points/search".
Proof. vm_compute. reflexivity. Qed.

Lemma answer_law_question_graph_run w q k h :
  answer_law_question_graph w q k h =
  match embed_texts w [q] h with
  | (Ok (vec :: _), h1) =>
      match qdrant_search_laws w vec k None h1 with
      | (Ok pts, h2) =>
          match call_openai_chat w
                  (fst (_build_prompts q (build_context_from_points pts 900)))
                  (snd (_build_prompts q (build_context_from_points pts 900))) h2 with
          | (Ok a, h3) => (Ok (a, pts), h3)
          | (Raise e, h3) => (Raise e, h3)
          end
      | (Raise e, h2) => (Raise e, h2)
      end
  | (Ok [], h1) => (Raise IndexError, h1)
  | (Raise e, h1) => (Raise e, h1)
  end.
Proof.
  unfold answer_law_question_graph. rewrite bind_run, invoke_full.
  rewrite bind_run, (node_embed_run w _ q) by reflexivity.
  destruct (embed_texts w [q] h) as [[[|vec vecs]|e] h1]; try reflexivity.
  rewrite bind_run, (node_retrieve_run w _ vec) by reflexivity.
  cbn [set_embed_ms set_query_vec initial_state State.top_k].
  destruct (qdrant_search_laws w vec k None h1) as [[pts|e] h2]; [|reflexivity].
  rewrite bind_run, (node_prompt_build_prompts _ q) by reflexivity.
  rewrite bind_run.
  rewrite (node_generate_run w _
             (fst (_build_prompts q (build_context_from_points pts 900)))
             (snd (_build_prompts q (build_context_from_points pts 900))))
    by reflexivity.
  destruct (call_openai_chat w _ _ h2) as [[a|e] h3]; reflexivity.
Qed.

(** X10: a failure of the vector store is passed on unchanged: after the one
    search request no retry is made, no generation request is sent and no
    fallback answer is produced, by the direct operations and by the graph. *)
Theorem search_failure_surfaces (w : World) (query : str) (top_k : Z)
    (h h1 : History) (vec : vector) (vecs : list vector) (e : exn) :
  embed_texts w [query] h = (Ok (vec :: vecs), h1) ->
  truthy (QDRANT_URL w) = true ->
  truthy (resolved_collection w None) = true ->
  search_reply w h1 (search_url w (resolved_collection w None)) (_qdrant_headers w)
    vec top_k = Raise e ->
  search_law_with_answer w query top_k h
  = (Raise e, h1 ++ [search_request w (resolved_collection w None) vec top_k])
  /\ stream_law_answer w query top_k h
     = (Raise e, h1 ++ [search_request w (resolved_collection w None) vec top_k])
  /\ answer_law_question_graph w query top_k h
     = (Raise e, h1 ++ [search_request w (resolved_collection w None) vec top_k]).
Proof.
  intros He Hu Hc Hr.
  assert (Hq : qdrant_search_laws w vec top_k None h1
               = (Raise e, h1 ++ [search_request w (resolved_collection w None) vec top_k])).
  { now rewrite qdrant_search_laws_run, Hr. }
  repeat split.
  - now rewrite search_law_with_answer_run, He, qdrant_search_laws_default, Hq.
  - now rewrite stream_law_answer_run, He, qdrant_search_laws_default, Hq.
  - now rewrite answer_law_question_graph_run, He, Hq.
Qed.

Lemma search_failure_example :
  let h1 := snd (embed_texts search_down_world [example_question] []) in
  search_law_with_answer search_down_world example_question 3 []
  = (Raise (External (lit "503")),
     h1 ++ [search_request search_down_world (resolved_collection search_down_world None)
              [0.5%float; 0.25%float] 3])
  /\ stream_law_answer search_down_world example_question 3 []
     = (Raise (External (lit "503")),
        h1 ++ [search_request search_down_world (resolved_collection search_down_world None)
                 [0.5%float; 0.25%float] 3])
  /\ answer_law_question_graph search_down_world example_question 3 []
     = (Raise (External (lit "503")),
        h1 ++ [search_request search_down_world (resolved_collection search_down_world None)
                 [0.5%float; 0.25%float] 3]).
Proof.
  intros h1.
  apply (search_failure_surfaces search_down_world example_question 3 [] h1
           [0.5%float; 0.25%float] [] (External (lit "503"))).
  - vm_compute. reflexivity.
  - vm_compute. reflexivity.
  - vm_compute. reflexivity.
  - reflexivity.
Defined.

(** ** app/rag/law_rag.py: the context, the answer and the generator *)

(** X11: the assembled context is the empty string exactly when there is no
    neighbour, whatever the cap and whatever the neighbours hold. *)
Theorem context_empty_iff_no_neighbour (points : list Neighbor) (max_chars_per_doc : Z) :
  build_context_from_points points max_chars_per_doc = [] <-> points = [].
Proof.
  split.
  - destruct points as [|p ps]; [reflexivity|]. intros E.
    pose proof (build_context_truthy p ps max_chars_per_doc) as H.
    rewrite E in H. discriminate.
  - intros ->. reflexivity.
Qed.

Lemma in_enumerate {A} (start : nat) (xs : list A) i x :
  In (i, x) (enumerate start xs) -> In x xs.
Proof.
  revert start. induction xs as [|y ys IH]; intros start H; [destruct H|].
  cbn [enumerate] in H. destruct H as [E | H]; [inversion E; now left|].
  right. eapply IH, H.
Qed.

Lemma answer_text_fits C p : fits C p -> answer_text C p = trimmed_answer p.
Proof.
  intros H. unfold answer_text. cbv zeta.
  destruct ((0 <? C) && (C <? len (trimmed_answer p))) eqn:E; [|reflexivity].
  apply andb_true_iff in E as [H0 H1]. apply Z.ltb_lt in H0, H1.
  destruct H; lia.
Qed.

(** X12: a cap of 0 or less truncates nothing, and neither does a cap that
    every trimmed answer fits in; for such caps the context does not depend
    on the cap. *)
Theorem context_unaffected_by_roomy_caps (points : list Neighbor) (C1 C2 : Z) :
  Forall (fits C1) points -> Forall (fits C2) points ->
  build_context_from_points points C1 = build_context_from_points points C2.
Proof.
  intros H1 H2. rewrite !build_context_blocks. f_equal.
  apply map_ext_in. intros [i p] Hin. cbn [fst snd].
  apply in_enumerate in Hin.
  rewrite List.Forall_forall in H1, H2.
  unfold emitted_section.
  now rewrite !answer_text_fits by auto.
Qed.

Lemma context_roomy_caps_example :
  build_context_from_points [padded_point; blank_point] 0
  = build_context_from_points [padded_point; blank_point] 900.
Proof.
  apply (context_unaffected_by_roomy_caps [padded_point; blank_point] 0 900).
  - constructor; [left; lia|]. constructor; [left; lia|]. constructor.
  - constructor; [right; vm_compute; discriminate|].
    constructor; [right; vm_compute; discriminate|]. constructor.
Defined.

(** X13: [call_openai_chat] returns an answer with no surrounding
    whitespace, after exactly one generation request in non-streaming mode
    with the two prompts it was given; when it fails, it has sent that one
    request or, lacking the API key, nothing at all. *)
Theorem chat_answer_is_trimmed (w : World) (system_prompt user_prompt : str) (h : History) :
  match call_openai_chat w system_prompt user_prompt h with
  | (Ok a, h') =>
      strip a = a /\ h' = h ++ [chat_request w system_prompt user_prompt false]
  | (Raise e, h') =>
      (h' = h /\ truthy (OPENAI_API_KEY_LAWBOT w) = false)
      \/ h' = h ++ [chat_request w system_prompt user_prompt false]
  end.
Proof.
  unfold call_openai_chat, _openai_client. rewrite bind_run.
  destruct (truthy (OPENAI_API_KEY_LAWBOT w)); cbn [negb].
  - cbv [ret]. rewrite bind_run. unfold remote. cbn [fst snd].
    destruct (chat_reply w h _ _ _ system_prompt user_prompt) as [[|c0 chs]|e].
    + right. reflexivity.
    + cbn [first_item]. rewrite bind_run. cbv [ret].
      split; [apply strip_idempotent | reflexivity].
    + right. reflexivity.
  - left. split; reflexivity.
Qed.

Example chat_answer_example :
  fst (call_openai_chat example_world system_prompt_text example_question [])
  = Ok (lit "임차권등기명령을 신청하세요.").
Proof. vm_compute. reflexivity. Qed.

Lemma filter_chat_keeps h reqs :
  forallb (fun rq => negb (is_chat rq)) reqs = true ->
  List.filter is_chat (h ++ reqs) = List.filter is_chat h.
Proof.
  intros H. rewrite List.filter_app.
  replace (List.filter is_chat reqs) with (@nil Request); [apply app_nil_r|].
  induction reqs as [|rq reqs IH]; [reflexivity|].
  cbn [forallb] in H. apply andb_true_iff in H as [H1 H2].
  cbn [List.filter]. destruct (is_chat rq); [discriminate | now apply IH].
Qed.

Lemma embeddings_are_not_chat reqs :
  forallb is_embedding reqs = true -> forallb (fun rq => negb (is_chat rq)) reqs = true.
Proof.
  induction reqs as [|rq reqs IH]; [reflexivity|].
  cbn [forallb]. intros H. apply andb_true_iff in H as [H1 H2].
  rewrite IH by exact H2. destruct rq; try discriminate. reflexivity.
Qed.

Lemma stream_law_answer_no_chat w q k h :
  List.filter is_chat (snd (stream_law_answer w q k h)) = List.filter is_chat h.
Proof.
  rewrite stream_law_answer_run.
  destruct (embed_texts_history w [q] h) as (reqs & Hh & Hr).
  apply embeddings_are_not_chat in Hr.
  destruct (embed_texts w [q] h) as [[[|vec vecs]|e] h1]; cbn [snd] in Hh; subst h1;
    try (cbn [snd]; now apply filter_chat_keeps).
  destruct (qdrant_search_laws_history w vec k (Some (_active_collection_name w)) (h ++ reqs))
    as [E | E];
    destruct (qdrant_search_laws w vec k _ (h ++ reqs)) as [[pts|e] h2];
    cbn [snd] in *; subst h2;
    rewrite ?List.filter_app; cbn [List.filter search_request is_chat];
    rewrite ?app_nil_r, <- ?List.filter_app; now apply filter_chat_keeps.
Qed.

Lemma search_law_with_answer_needs_key w q k h :
  truthy (OPENAI_API_KEY_LAWBOT w) = false ->
  is_raise (fst (search_law_with_answer w q k h)) = true.
Proof.
  intros Hk. rewrite search_law_with_answer_run.
  destruct (embed_texts w [q] h) as [[[|vec vecs]|e] h1]; try reflexivity.
  destruct (qdrant_search_laws w vec k _ h1) as [[pts|e] h2]; [|reflexivity].
  unfold call_openai_chat, _openai_client. rewrite bind_run, Hk. reflexivity.
Qed.

(** X14: the streaming operation never contacts the generation service
    itself.  Without the chat API key the synchronous operation always fails,
    while the streaming operation still returns its generator and neighbours
    whenever retrieval succeeds; the configuration error is raised by the
    first [next] on that generator, with nothing sent. *)
Theorem stream_defers_generation (w : World) (query : str) (top_k : Z) (h : History) :
  List.filter is_chat (snd (stream_law_answer w query top_k h)) = List.filter is_chat h
  /\ (truthy (OPENAI_API_KEY_LAWBOT w) = false ->
      is_raise (fst (search_law_with_answer w query top_k h)) = true
      /\ forall gen pts h2 h',
           stream_law_answer w query top_k h = (Ok (gen, pts), h2) ->
           gen_next w gen h'
           = (Raise (RuntimeError (lit "OPENAI_API_KEY_LAWBOT 이 비었습니다. .env 확인")), h')).
Proof.
  split; [apply stream_law_answer_no_chat|].
  intros Hk. split; [now apply search_law_with_answer_needs_key|].
  intros gen pts h2 h' Hs. rewrite stream_law_answer_run in Hs.
  destruct (embed_texts w [query] h) as [[[|vec vecs]|e] h1];
    [discriminate | | discriminate].
  destruct (qdrant_search_laws w vec top_k _ h1) as [[pts'|e] h2']; [|discriminate].
  apply (f_equal (fun r : result (Generator * list Neighbor) * History =>
                    match fst r with Ok (g, _) => g | Raise _ => GenFinished end)) in Hs.
  cbv beta iota in Hs. cbn [fst] in Hs. subst gen.
  unfold call_openai_chat_stream. cbn [gen_next].
  unfold _openai_client. rewrite bind_run, Hk. reflexivity.
Qed.

Lemma stream_defers_example :
  is_raise (fst (search_law_with_answer no_chat_key_world example_question 2 [])) = true
  /\ is_raise (fst (stream_law_answer no_chat_key_world example_question 2 [])) = false
  /\ List.filter is_chat (snd (stream_law_answer no_chat_key_world example_question 2 []))
     = List.filter is_chat [].
Proof.
  pose proof (stream_defers_generation no_chat_key_world example_question 2 [])
    as [H1 H2].
  assert (Hk : truthy (OPENAI_API_KEY_LAWBOT no_chat_key_world) = false)
    by (vm_compute; reflexivity).
  destruct (H2 Hk) as [Ha _].
  split; [exact Ha|].
  split; [vm_compute; reflexivity | exact H1].
Defined.

Lemma gen_drain_started w fuel g h :
  (forall sp up, g <> GenCreated sp up) -> snd (gen_drain w fuel g h) = h.
Proof.
  revert g h. induction fuel as [|fuel IH]; intros g h Hg; [reflexivity|].
  cbn [gen_drain]. rewrite bind_run.
  destruct g as [sp up | pending |]; [exfalso; now apply (Hg sp up) | |].
  - cbn [gen_next]. cbv [ret].
    destruct (stream_loop_cases pending) as [[-> _] | (d & rest & -> & _ & _)].
    + reflexivity.
    + cbn [fst snd]. rewrite bind_run.
      pose proof (IH (GenSuspended rest) h ltac:(discriminate)) as Hr.
      destruct (gen_drain w fuel (GenSuspended rest) h) as [[r|e] h1];
        cbn [snd] in Hr; subst; reflexivity.
  - reflexivity.
Qed.

(** X15: over its whole life a generator sends at most one request, the
    streaming generation request with its two prompts, and that only from the
    state in which no [next] has been called yet; a generator that has been
    started or has finished sends nothing more. *)
Theorem generator_sends_at_most_one_request (w : World) (fuel : nat) (g : Generator)
    (h : History) :
  snd (gen_drain w fuel g h) = h
  \/ exists system_prompt user_prompt,
       g = GenCreated system_prompt user_prompt
       /\ snd (gen_drain w fuel g h) = h ++ [chat_request w system_prompt user_prompt true].
Proof.
  destruct g as [sp up | pending |];
    [| left; apply gen_drain_started; discriminate
     | left; apply gen_drain_started; discriminate].
  destruct fuel as [|fuel]; [now left|].
  cbn [gen_drain gen_next]. unfold _openai_client. rewrite !bind_run.
  destruct (truthy (OPENAI_API_KEY_LAWBOT w)); cbn [negb]; [|now left].
  right. exists sp, up. split; [reflexivity|].
  cbv [ret]. rewrite bind_run. unfold remote. cbn [fst snd].
  destruct (chat_stream_reply w h _ _ _ sp up) as [chunks|e]; [|reflexivity].
  destruct (stream_loop_cases chunks) as [[-> _] | (d & rest & -> & _ & _)].
  - reflexivity.
  - cbn [fst snd]. rewrite bind_run.
    pose proof (gen_drain_started w fuel (GenSuspended rest)
                  (h ++ [chat_request w sp up true]) ltac:(discriminate)) as Hr.
    unfold chat_request in *.
    destruct (gen_drain w fuel (GenSuspended rest) _) as [[r|e] h1];
      cbn [snd] in Hr; subst; reflexivity.
Qed.

(** ** app/rag/law_rag_graph.py: how the graphs compose and fail *)

(** X16: the full graph is the prep graph followed by the generate node: it
    issues the same requests and reaches the same state or the same error. *)
Theorem full_graph_is_prep_then_generate (w : World) (s : GraphState) (h : History) :
  invoke (LAW_GRAPH_FULL w) s h
  = (prepared <- invoke (LAW_GRAPH_PREP w) s ;; _node_generate w prepared) h.
Proof.
  rewrite invoke_full, !bind_run, invoke_prep, bind_run.
  destruct (_node_embed w s h) as [[s1|e] h1]; [|reflexivity].
  rewrite !bind_run.
  destruct (_node_retrieve w s1 h1) as [[s2|e] h2]; [|reflexivity].
  rewrite !bind_run.
  destruct (_node_prompt s2 h2) as [[s3|e] h3]; [|reflexivity].
  rewrite bind_run. cbv [ret].
  destruct (_node_generate w s3 h3) as [[s4|e] h4]; reflexivity.
Qed.

Lemma last_cons_default {A} (x d : A) l : List.last (x :: l) d = List.last l x.
Proof.
  revert x d. induction l as [|y l IH]; intros x d; [reflexivity|].
  change (List.last (x :: y :: l) d) with (List.last (y :: l) d).
  now rewrite !IH.
Qed.

Lemma run_stages_abort w before st after s states h h1 e h2 :
  run_stages w before s h = (Ok states, h1) ->
  stage_fn w st (List.last states s) h1 = (Raise e, h2) ->
  run_stages w (before ++ st :: after) s h = (Raise e, h2).
Proof.
  revert s states h. induction before as [|b before IH]; intros s states h Hrun Hst.
  - cbn [run_stages] in Hrun. cbv [ret] in Hrun.
    assert (Es : states = []).
    { apply (f_equal (fun r : result (list GraphState) * History =>
                        match fst r with Ok l => l | Raise _ => [] end)) in Hrun.
      now cbn in Hrun. }
    assert (Eh : h = h1) by exact (f_equal snd Hrun).
    subst. cbn [List.last] in Hst. cbn [app]. rewrite run_stages_cons, Hst. reflexivity.
  - cbn [app]. rewrite run_stages_cons in *.
    destruct (stage_fn w b s h) as [[s1|e1] h0]; [|discriminate].
    destruct (run_stages w before s1 h0) as [[tl|e1] h0'] eqn:Etl; [|discriminate].
    assert (Es : states = s1 :: tl).
    { apply (f_equal (fun r : result (list GraphState) * History =>
                        match fst r with Ok l => l | Raise _ => [] end)) in Hrun.
      now cbn in Hrun. }
    assert (Eh : h0' = h1) by exact (f_equal snd Hrun).
    subst. rewrite (IH s1 tl h0 Etl); [reflexivity|].
    now rewrite <- last_cons_default with (d := s).
Qed.

(** X17: a stage that raises ends the run: when the stages before it have
    succeeded and it raises [e], the compiled full graph raises [e] with the
    history as that stage left it; no later stage runs and no state is
    returned. *)
Theorem stage_failure_aborts_graph (w : World) (before after : list Stage) (st : Stage)
    (s : GraphState) (states : list GraphState) (h h1 h2 : History) (e : exn) :
  before ++ st :: after = [Embed; Retrieve; Prompt; Generate] ->
  run_stages w before s h = (Ok states, h1) ->
  stage_fn w st (List.last states s) h1 = (Raise e, h2) ->
  invoke (LAW_GRAPH_FULL w) s h = (Raise e, h2).
Proof.
  intros Hsplit Hrun Hst. rewrite invoke_full_stages, <- Hsplit.
  now rewrite (run_stages_abort w before st after s states h h1 e h2 Hrun Hst).
Qed.

Lemma stage_failure_example :
  invoke (LAW_GRAPH_FULL search_down_world) (initial_state example_question 3) []
  = (Raise (External (lit "503")),
     snd (run_stages search_down_world [Embed; Retrieve]
            (initial_state example_question 3) [])).
Proof.
  apply (stage_failure_aborts_graph search_down_world [Embed] [Prompt; Generate] Retrieve
           (initial_state example_question 3)
           (match fst (run_stages search_down_world [Embed]
                         (initial_state example_question 3) []) with
            | Ok l => l | Raise _ => [] end)
           []
           (snd (run_stages search_down_world [Embed] (initial_state example_question 3) []))).
  - reflexivity.
  - vm_compute. reflexivity.
  - vm_compute. reflexivity.
Defined.

(** X18: when the full graph returns, its final state is coherent: the
    question and top_k are the caller's, the context is the one assembled
    from the stored neighbours, the prompts are the ones built from the
    question and that context, and every key is set. *)
Theorem final_state_is_coherent (w : World) (question : str) (top_k : Z) (h : History) :
  match invoke (LAW_GRAPH_FULL w) (initial_state question top_k) h with
  | (Ok final, _) =>
      State.question final = Some question
      /\ State.top_k final = Some top_k
      /\ exists pts,
           State.points final = Some pts
           /\ State.context final = Some (build_context_from_points pts 900)
           /\ State.system_prompt final = Some system_prompt_text
           /\ State.user_prompt final
              = Some (snd (_build_prompts question (build_context_from_points pts 900)))
           /\ populated final = all_keys
  | (Raise _, _) => True
  end.
Proof.
  rewrite invoke_full, bind_run.
  rewrite (node_embed_run w _ question) by reflexivity.
  destruct (embed_texts w [question] h) as [[[|vec vecs]|e] h1]; try exact I.
  rewrite bind_run, (node_retrieve_run w _ vec) by reflexivity.
  destruct (qdrant_search_laws w vec _ None h1) as [[pts|e] h2]; [|exact I].
  rewrite bind_run, (node_prompt_build_prompts _ question) by reflexivity.
  rewrite bind_run.
  rewrite (node_generate_run w _
             (fst (_build_prompts question (build_context_from_points pts 900)))
             (snd (_build_prompts question (build_context_from_points pts 900))))
    by reflexivity.
  destruct (call_openai_chat w _ _ h2) as [[a|e] h3]; [|exact I].
  cbv [ret].
  split; [reflexivity|]. split; [reflexivity|].
  exists pts. repeat split.
Qed.

Example final_state_example :
  is_raise (fst (invoke (LAW_GRAPH_FULL example_world) (initial_state example_question 3) []))
  = false.
Proof. vm_compute. reflexivity. Qed.

(** ** app/api/routes_law_chat.py *)

(** The request model accepts a body exactly when it has a question of at
    least one character and a top_k, 5 when absent, between 1 and 20. *)
Lemma request_accepted_iff (question : option str) (top_k : option Z)
    (req : Api.LawChatRequest) :
  LawChatRequest question top_k = Ok req
  <-> exists q,
        question = Some q
        /\ 1 <= len q
        /\ 1 <= (match top_k with Some k => k | None => 5 end) <= 20
        /\ req = {| Api.question := q;
                    Api.top_k := match top_k with Some k => k | None => 5 end |}.
Proof.
  unfold LawChatRequest. split.
  - destruct question as [q|]; [|discriminate].
    destruct (len q <? 1) eqn:Eq; [discriminate|]. cbv zeta.
    destruct ((match top_k with Some k => k | None => 5 end <? 1)
              || (20 <? match top_k with Some k => k | None => 5 end)) eqn:Ek;
      [discriminate|].
    intros H. exists q. apply orb_false_iff in Ek as [E1 E2].
    apply Z.ltb_ge in Eq, E1, E2.
    repeat split; try lia. congruence.
  - intros (q & -> & Hq & [H1 H2] & ->).
    replace (len q <? 1) with false by (symmetry; apply Z.ltb_ge; lia). cbv zeta.
    replace (match top_k with Some k => k | None => 5 end <? 1) with false
      by (symmetry; apply Z.ltb_ge; lia).
    replace (20 <? match top_k with Some k => k | None => 5 end) with false
      by (symmetry; apply Z.ltb_ge; lia).
    reflexivity.
Qed.

Lemma call_openai_chat_history w sp up h :
  snd (call_openai_chat w sp up h) = h
  \/ snd (call_openai_chat w sp up h) = h ++ [chat_request w sp up false].
Proof.
  unfold call_openai_chat, _openai_client. rewrite bind_run.
  destruct (truthy (OPENAI_API_KEY_LAWBOT w)); cbn [negb]; [|now left].
  right. cbv [ret]. rewrite bind_run. unfold remote. cbn [fst snd].
  destruct (chat_reply w h _ _ _ sp up) as [[|c0 chs]|e]; reflexivity.
Qed.

Lemma Forall_embeddings (P : Request -> Prop) reqs :
  (forall rq, is_embedding rq = true -> P rq) ->
  forallb is_embedding reqs = true -> Forall P reqs.
Proof.
  intros HP H. apply List.Forall_forall. intros rq Hin.
  apply HP. rewrite forallb_forall in H. now apply H.
Qed.

Lemma search_law_with_answer_sends (P : Request -> Prop) w q k h :
  (forall rq, is_embedding rq = true -> P rq) ->
  (forall col vec, P (search_request w col vec k)) ->
  (forall sp up, P (chat_request w sp up false)) ->
  sends_within P (search_law_with_answer w q k) h.
Proof.
  intros He Hs Hc. unfold sends_within. rewrite search_law_with_answer_run.
  destruct (embed_texts_history w [q] h) as (reqs & Hh & Hr).
  apply (Forall_embeddings P _ He) in Hr.
  destruct (embed_texts w [q] h) as [[[|vec vecs]|e] h1]; cbn [snd] in Hh; subst h1;
    [now exists reqs | | now exists reqs].
  destruct (qdrant_search_laws_history w vec k (Some (_active_collection_name w)) (h ++ reqs))
    as [E | E];
    destruct (qdrant_search_laws w vec k _ (h ++ reqs)) as [[pts|e] h2];
    cbn [snd] in E; subst h2.
  - match goal with |- context [call_openai_chat w ?sp ?up ?h0] =>
      destruct (call_openai_chat_history w sp up h0) as [E | E];
      destruct (call_openai_chat w sp up h0) as [[a|e] h3]; cbn [snd] in E; subst h3
    end; cbn [snd].
    + now exists reqs.
    + now exists reqs.
    + eexists. rewrite <- app_assoc. split; [reflexivity|].
      apply Forall_app. split; [exact Hr | constructor; [apply Hc | constructor]].
    + eexists. rewrite <- app_assoc. split; [reflexivity|].
      apply Forall_app. split; [exact Hr | constructor; [apply Hc | constructor]].
  - now exists reqs.
  - match goal with |- context [call_openai_chat w ?sp ?up ?h0] =>
      destruct (call_openai_chat_history w sp up h0) as [E | E];
      destruct (call_openai_chat w sp up h0) as [[a|e] h3]; cbn [snd] in E; subst h3
    end; cbn [snd].
    + eexists. rewrite <- app_assoc. split; [reflexivity|].
      apply Forall_app. split; [exact Hr | constructor; [apply Hs | constructor]].
    + eexists. rewrite <- app_assoc. split; [reflexivity|].
      apply Forall_app. split; [exact Hr | constructor; [apply Hs | constructor]].
    + eexists. rewrite <- !app_assoc. split; [reflexivity|].
      apply Forall_app. split; [exact Hr|]. cbn [app].
      constructor; [apply Hs | constructor; [apply Hc | constructor]].
    + eexists. rewrite <- !app_assoc. split; [reflexivity|].
      apply Forall_app. split; [exact Hr|]. cbn [app].
      constructor; [apply Hs | constructor; [apply Hc | constructor]].
  - cbn [snd]. eexists. rewrite <- app_assoc. split; [reflexivity|].
    apply Forall_app. split; [exact Hr | constructor; [apply Hs | constructor]].
Qed.

Lemma stream_law_answer_sends (P : Request -> Prop) w q k h :
  (forall rq, is_embedding rq = true -> P rq) ->
  (forall col vec, P (search_request w col vec k)) ->
  sends_within P (stream_law_answer w q k) h.
Proof.
  intros He Hs. unfold sends_within. rewrite stream_law_answer_run.
  destruct (embed_texts_history w [q] h) as (reqs & Hh & Hr).
  apply (Forall_embeddings P _ He) in Hr.
  destruct (embed_texts w [q] h) as [[[|vec vecs]|e] h1]; cbn [snd] in Hh; subst h1;
    [now exists reqs | | now exists reqs].
  destruct (qdrant_search_laws_history w vec k (Some (_active_collection_name w)) (h ++ reqs))
    as [E | E];
    destruct (qdrant_search_laws w vec k _ (h ++ reqs)) as [[pts|e] h2];
    cbn [snd] in E; subst h2; cbn [snd];
    try (now exists reqs);
    (eexists; rewrite <- app_assoc; split; [reflexivity|];
     apply Forall_app; split; [exact Hr | constructor; [apply Hs | constructor]]).
Qed.

Lemma chat_law_graph_run w req h : chat_law_graph w req h = chat_law w req h.
Proof.
  unfold chat_law_graph, chat_law. rewrite !bind_run.
  rewrite answer_law_question_graph_run, search_law_with_answer_run.
  destruct (embed_texts w [Api.question req] h) as [[[|vec vecs]|e] h1]; try reflexivity.
  now rewrite qdrant_search_laws_default.
Qed.

Lemma chat_law_graph_stream_run w req h :
  chat_law_graph_stream w req h = chat_law_stream w req h.
Proof.
  unfold chat_law_graph_stream, chat_law_stream. rewrite !bind_run.
  now rewrite graph_stream_agrees_with_direct.
Qed.

Lemma snd_bind_ret {A B} (c : M A) (f : A -> B) h :
  snd (bind c (fun r => ret (f r)) h) = snd (c h).
Proof. rewrite bind_run. destruct (c h) as [[a|e] h1]; reflexivity. Qed.

(** X19: whatever body is posted to any of the four routes, every search
    request the route sends asks for exactly the requested number of
    neighbours, 5 when the body has no top_k, and that number is between 1 and
    20: the vector store is never asked for 0, a negative number or more than
    20 neighbours. *)
Theorem routes_bound_the_search_limit (w : World) (question : option str)
    (top_k : option Z) (h : History) :
  sends_within (asks_for (match top_k with Some k => k | None => 5 end))
    (post (chat_law w) question top_k) h
  /\ sends_within (asks_for (match top_k with Some k => k | None => 5 end))
       (post (chat_law_stream w) question top_k) h
  /\ sends_within (asks_for (match top_k with Some k => k | None => 5 end))
       (post (chat_law_graph w) question top_k) h
  /\ sends_within (asks_for (match top_k with Some k => k | None => 5 end))
       (post (chat_law_graph_stream w) question top_k) h.
Proof.
  assert (G : forall req, LawChatRequest question top_k = Ok req ->
            sends_within (asks_for (match top_k with Some k => k | None => 5 end))
              (chat_law w req) h
            /\ sends_within (asks_for (match top_k with Some k => k | None => 5 end))
                 (chat_law_stream w req) h).
  { intros req Hreq. apply request_accepted_iff in Hreq as (q & _ & _ & Hk & ->).
    cbn [Api.question Api.top_k].
    assert (He : forall rq, is_embedding rq = true ->
                 asks_for (match top_k with Some k => k | None => 5 end) rq).
    { intros rq Hrq. destruct rq; try discriminate. exact I. }
    assert (Hs : forall col vec,
                 asks_for (match top_k with Some k => k | None => 5 end)
                   (search_request w col vec (match top_k with Some k => k | None => 5 end))).
    { intros col vec. split; [reflexivity | exact Hk]. }
    split.
    - destruct (search_law_with_answer_sends _ w q _ h He Hs (fun _ _ => I))
        as (reqs & E & Hall).
      exists reqs. split; [|exact Hall].
      unfold chat_law. cbn [Api.question Api.top_k]. now rewrite snd_bind_ret.
    - destruct (stream_law_answer_sends _ w q _ h He Hs) as (reqs & E & Hall).
      exists reqs. split; [|exact Hall].
      unfold chat_law_stream. cbn [Api.question Api.top_k]. now rewrite snd_bind_ret. }
  assert (R : forall A (handler : Api.LawChatRequest -> M A),
            (forall req, LawChatRequest question top_k = Ok req ->
               sends_within (asks_for (match top_k with Some k => k | None => 5 end))
                 (handler req) h) ->
            sends_within (asks_for (match top_k with Some k => k | None => 5 end))
              (post handler question top_k) h).
  { intros A handler Hh. unfold sends_within, post, lift. rewrite bind_run.
    destruct (LawChatRequest question top_k) as [req|e].
    - apply (Hh req eq_refl).
    - exists []. rewrite app_nil_r. split; [reflexivity | constructor]. }
  split; [apply R; intros req Hreq; apply (G req Hreq)|].
  split; [apply R; intros req Hreq; apply (G req Hreq)|].
  split; apply R; intros req Hreq; unfold sends_within.
  - rewrite chat_law_graph_run. apply (G req Hreq).
  - rewrite chat_law_graph_stream_run. apply (G req Hreq).
Qed.

Example route_limit_example :
  omap search_limit (snd (post (chat_law example_world) (Some example_question) None []))
  = [5].
Proof. vm_compute. reflexivity. Qed.

Lemma qdrant_points_shape w vec k cn h :
  match qdrant_search_laws w vec k cn h with
  | (Ok pts, _) => Forall (fun p => answerSnippet p = None /\ docNo p = None) pts
  | (Raise _, _) => True
  end.
Proof.
  destruct (truthy (QDRANT_URL w)) eqn:Hu.
  - destruct (truthy (resolved_collection w cn)) eqn:Hc.
    + rewrite qdrant_search_laws_run by assumption.
      destruct (search_reply w h _ _ vec k) as [data|e]; [|exact I].
      apply List.Forall_forall. intros p Hp. apply in_map_iff in Hp as (r & <- & _).
      split; reflexivity.
    + destruct (resolved_collection w cn) eqn:E; [|discriminate].
      destruct (qdrant_search_laws_no_collection w vec k cn h E) as (msg & ->). exact I.
  - unfold qdrant_search_laws. rewrite Hu. exact I.
Qed.

(** X20: whatever the services answer, a response of the /chat route has
    [ok] true and one source per retrieved neighbour, and no source ever
    carries an answer snippet or a document number (both are always null);
    that response exists exactly when the synchronous operation returned. *)
Theorem chat_response_sources (w : World) (req : Api.LawChatRequest) (h : History) :
  match chat_law w req h, search_law_with_answer w (Api.question req) (Api.top_k req) h with
  | (Ok resp, h1), (Ok (a, pts), h2) =>
      h1 = h2
      /\ Api.ok resp = true
      /\ Api.answer resp = a
      /\ map Api.id (Api.sources resp) = map id pts
      /\ map Api.score (Api.sources resp) = map score pts
      /\ Forall (fun s => Api.answerSnippet s = None /\ Api.docNo s = None)
           (Api.sources resp)
  | (Raise e1, h1), (Raise e2, h2) => e1 = e2 /\ h1 = h2
  | _, _ => False
  end.
Proof.
  unfold chat_law. rewrite bind_run, search_law_with_answer_run.
  destruct (embed_texts w [Api.question req] h) as [[[|vec vecs]|e] h1];
    [split; reflexivity | | split; reflexivity].
  pose proof (qdrant_points_shape w vec (Api.top_k req)
                (Some (_active_collection_name w)) h1) as Hshape.
  destruct (qdrant_search_laws w vec (Api.top_k req) _ h1) as [[pts|e] h2];
    [|split; reflexivity].
  destruct (call_openai_chat w _ _ h2) as [[a|e] h3]; [|split; reflexivity].
  cbv [ret]. cbn [fst snd Api.ok Api.answer Api.sources].
  split; [reflexivity|]. split; [reflexivity|]. split; [reflexivity|].
  split; [now rewrite map_map|]. split; [now rewrite map_map|].
  apply List.Forall_forall. intros s Hs. apply in_map_iff in Hs as (p & <- & Hp).
  rewrite List.Forall_forall in Hshape. exact (Hshape p Hp).
Qed.

(** X21: the graph variants agree with the direct ones: the streaming graph
    operation returns what the direct streaming operation returns, and each
    graph route answers every request body as the corresponding direct route
    does, after the same requests. *)
Theorem graph_variants_agree (w : World) (question : option str) (top_k : option Z)
    (h : History) :
  (forall q k, stream_law_answer_graph w q k h = stream_law_answer w q k h)
  /\ post (chat_law_graph w) question top_k h = post (chat_law w) question top_k h
  /\ post (chat_law_graph_stream w) question top_k h
     = post (chat_law_stream w) question top_k h.
Proof.
  split; [intros q k; apply graph_stream_agrees_with_direct|].
  unfold post, lift. rewrite !bind_run.
  destruct (LawChatRequest question top_k) as [req|e]; [|split; reflexivity].
  split.
  - unfold chat_law_graph, chat_law. rewrite !bind_run.
    rewrite answer_law_question_graph_run, search_law_with_answer_run.
    destruct (embed_texts w [Api.question req] h) as [[[|vec vecs]|e] h1]; try reflexivity.
    now rewrite qdrant_search_laws_default.
  - unfold chat_law_graph_stream, chat_law_stream. rewrite !bind_run.
    now rewrite graph_stream_agrees_with_direct.
Qed.

(** ** app/main.py *)

(** X22: the start-up warm-up never raises, whatever the embedding provider
    and service do, and sends embeddings requests only. *)
Theorem startup_warmup_never_raises (w : World) (h : History) :
  exists reqs,
    _startup_warmup w h = (Ok tt, h ++ reqs) /\ forallb is_embedding reqs = true.
Proof.
  unfold _startup_warmup, try_except. rewrite bind_run.
  destruct (embed_texts_history w [lit "warmup"] h) as (reqs & Hh & Hr).
  exists reqs. split; [|exact Hr].
  destruct (embed_texts w [lit "warmup"] h) as [[vecs|e] h1]; cbn [snd] in Hh; subst h1;
    reflexivity.
Qed.

Example startup_warmup_failing :
  fst (_startup_warmup failing_world []) = Ok tt
  /\ length (snd (_startup_warmup failing_world [])) = 3%nat.
Proof. split; vm_compute; reflexivity. Qed.

(** ** app/rag/law_rag_chain.py *)

Lemma http_search_run w vec k h :
  truthy (QDRANT_URL w) = true -> truthy (resolved_collection w None) = true ->
  _http_search_points_by_vector w vec k h
  = (match search_reply w h (search_url w (resolved_collection w None)) (_qdrant_headers w)
             vec k with
     | Ok data =>
         Ok (map (chain_point_of_hit (resolved_collection w None))
               (match data with Some rs => rs | None => [] end))
     | Raise e => Raise e
     end,
     h ++ [search_request w (resolved_collection w None) vec k]).
Proof.
  intros Hu Hc. unfold _http_search_points_by_vector. rewrite Hu. cbn [negb].
  change (strip (Chain._active_collection_name w)) with (resolved_collection w None).
  rewrite Hc. cbn [negb]. cbv zeta. rewrite bind_run.
  unfold remote, search_request, search_url, _qdrant_headers.
  destruct (truthy (QDRANT_API_KEY w));
    destruct (search_reply w h _ _ vec k) as [data|e]; reflexivity.
Qed.

(** X23: the retrieval chain's search and the pipeline's search are the same
    call on the wire: for the same vector and top_k they send the same request
    (or both send nothing), fail together, and on success return hits that
    match one for one in id, collection and payload texts. *)
Theorem chain_search_matches_pipeline (w : World) (query_vec : vector) (top_k : Z)
    (h : History) :
  match _http_search_points_by_vector w query_vec top_k h,
        qdrant_search_laws w query_vec top_k None h with
  | (Ok cpts, h1), (Ok pts, h2) =>
      h1 = h2
      /\ map (fun c => id_str (Some (Chain.id c))) cpts = map id pts
      /\ map Chain.collection cpts = map collection pts
      /\ map (fun c => Chain.payload c !! "question"%string) cpts = map question pts
      /\ map (fun c => Chain.payload c !! "answer"%string) cpts = map answer pts
  | (Raise _, h1), (Raise _, h2) => h1 = h2
  | _, _ => False
  end.
Proof.
  destruct (truthy (QDRANT_URL w)) eqn:Hu.
  - destruct (truthy (resolved_collection w None)) eqn:Hc.
    + rewrite http_search_run, qdrant_search_laws_run by assumption.
      destruct (search_reply w h _ _ query_vec top_k) as [data|e]; [|reflexivity].
      split; [reflexivity|]. rewrite !map_map.
      repeat split; apply map_ext; intros r; cbn;
        destruct (sp_id r) as [[n|s]|]; destruct (sp_payload r); reflexivity.
    + destruct (resolved_collection w None) eqn:E; [|discriminate].
      destruct (qdrant_search_laws_no_collection w query_vec top_k None h E) as (msg & ->).
      unfold _http_search_points_by_vector. rewrite Hu. cbn [negb].
      change (strip (Chain._active_collection_name w)) with (resolved_collection w None).
      rewrite E. reflexivity.
  - unfold _http_search_points_by_vector, qdrant_search_laws. rewrite Hu. reflexivity.
Qed.

Example chain_search_example :
  is_raise (fst (_http_search_points_by_vector example_world [0.5%float] 2 [])) = false.
Proof. vm_compute. reflexivity. Qed.

(** X24: when the embedding service returns no vector, the retrieval chain
    does not fail: it searches with the empty vector, whereas the answering
    pipeline raises [IndexError] and sends no search request. *)
Theorem chain_searches_with_empty_vector (w : World) (question : str) (top_k : Z)
    (h h1 : History) :
  embed_texts w [question] h = (Ok [], h1) ->
  build_retrieval_chain w top_k question h = _http_search_points_by_vector w [] top_k h1
  /\ (truthy (QDRANT_URL w) = true -> truthy (resolved_collection w None) = true ->
      snd (build_retrieval_chain w top_k question h)
      = h1 ++ [search_request w (resolved_collection w None) [] top_k])
  /\ search_law_with_answer w question top_k h = (Raise IndexError, h1)
  /\ stream_law_answer w question top_k h = (Raise IndexError, h1).
Proof.
  intros He.
  assert (Hc : build_retrieval_chain w top_k question h
               = _http_search_points_by_vector w [] top_k h1).
  { unfold build_retrieval_chain, _embed_question. rewrite !bind_run, He. reflexivity. }
  split; [exact Hc|]. split.
  - intros Hu Hcol. rewrite Hc, http_search_run by assumption. reflexivity.
  - split.
    + now rewrite search_law_with_answer_run, He.
    + now rewrite stream_law_answer_run, He.
Qed.

Lemma chain_empty_vector_example :
  let h1 := snd (embed_texts no_vector_world [example_question] []) in
  build_retrieval_chain no_vector_world 3 example_question []
  = _http_search_points_by_vector no_vector_world [] 3 h1
  /\ (truthy (QDRANT_URL no_vector_world) = true ->
      truthy (resolved_collection no_vector_world None) = true ->
      snd (build_retrieval_chain no_vector_world 3 example_question [])
      = h1 ++ [search_request no_vector_world (resolved_collection no_vector_world None) [] 3])
  /\ search_law_with_answer no_vector_world example_question 3 [] = (Raise IndexError, h1)
  /\ stream_law_answer no_vector_world example_question 3 [] = (Raise IndexError, h1).
Proof.
  intros h1.
  apply (chain_searches_with_empty_vector no_vector_world example_question 3 [] h1).
  vm_compute. reflexivity.
Defined.

(** ** app/ingestion: loading rows and storing payloads *)

Lemma fold_left_snoc_filter {A B} (step : list B -> A -> list B) (keep : A -> option B)
    (xs : list A) (acc : list B) :
  (forall rows x, step rows x = match keep x with Some r => rows ++ [r] | None => rows end) ->
  fold_left step xs acc = acc ++ omap keep xs.
Proof.
  intros Hstep. revert acc. induction xs as [|x xs IH]; intros acc.
  - cbn. now rewrite app_nil_r.
  - cbn [fold_left omap list_omap]. rewrite IH, Hstep.
    destruct (keep x); [now rewrite <- app_assoc | reflexivity].
Qed.

Lemma omap_length_le {A B} (f : A -> option B) (xs : list A) :
  (length (omap f xs) <= length xs)%nat.
Proof.
  induction xs as [|x xs IH]; [reflexivity|].
  cbn [omap list_omap]. destruct (f x); simpl; lia.
Qed.

Lemma omap_Forall {A B} (f : A -> option B) (P : B -> Prop) (xs : list A) :
  (forall x r, f x = Some r -> P r) -> Forall P (omap f xs).
Proof.
  intros H. induction xs as [|x xs IH]; [constructor|].
  cbn [omap list_omap]. destruct (f x) as [r|] eqn:E; [constructor; eauto | exact IH].
Qed.

Lemma truthy_nonempty (s : str) : truthy s = true <-> s <> [].
Proof. destruct s; split; intros H; try reflexivity; try congruence. discriminate. Qed.

(** X25: [load_basic_1] keeps the rows in file order, drops exactly the
    rows whose question or answer is blank, and every row it returns is
    labelled KLAC_BASIC_1 and has a non-empty question and answer with no
    surrounding whitespace. *)
Theorem loaded_rows_are_complete (csv_rows : list RawRow) :
  Forall (fun r =>
            Loader.source_dataset r = lit "KLAC_BASIC_1"
            /\ Loader.question r <> [] /\ strip (Loader.question r) = Loader.question r
            /\ Loader.answer r <> [] /\ strip (Loader.answer r) = Loader.answer r
            /\ strip (Loader.law_category r) = Loader.law_category r)
    (load_all_law_rows csv_rows)
  /\ map Loader.question (load_all_law_rows csv_rows)
     = List.filter truthy
         (map (fun raw => if truthy (strip (or_empty (raw !! lit "기본답변")))
                          then strip (or_empty (raw !! lit "기본질문")) else [])
            csv_rows)
  /\ (length (load_all_law_rows csv_rows) <= length csv_rows)%nat.
Proof.
  unfold load_all_law_rows, load_basic_1.
  set (keep := fun raw : RawRow =>
         if negb (truthy (strip (or_empty (raw !! lit "기본질문"))))
            || negb (truthy (strip (or_empty (raw !! lit "기본답변"))))
         then None
         else Some {| Loader.source_dataset := lit "KLAC_BASIC_1";
                      Loader.law_category := strip (or_empty (raw !! lit "법률분류"));
                      Loader.question := strip (or_empty (raw !! lit "기본질문"));
                      Loader.answer := strip (or_empty (raw !! lit "기본답변")) |}).
  rewrite (fold_left_snoc_filter load_basic_1_step keep).
  2:{ intros rows x. unfold load_basic_1_step, keep. cbv zeta.
      destruct (negb _ || negb _); reflexivity. }
  cbn [app]. split; [|split].
  - apply omap_Forall. intros raw r. unfold keep.
    destruct (truthy (strip (or_empty (raw !! lit "기본질문")))) eqn:Eq;
      destruct (truthy (strip (or_empty (raw !! lit "기본답변")))) eqn:Ea;
      cbn [negb orb]; intros H; try discriminate.
    assert (E : r = {| Loader.source_dataset := lit "KLAC_BASIC_1";
                       Loader.law_category := strip (or_empty (raw !! lit "법률분류"));
                       Loader.question := strip (or_empty (raw !! lit "기본질문"));
                       Loader.answer := strip (or_empty (raw !! lit "기본답변")) |})
      by congruence.
    subst r. cbn [Loader.source_dataset Loader.question Loader.answer Loader.law_category].
    apply truthy_nonempty in Eq, Ea.
    rewrite !strip_idempotent. repeat split; assumption.
  - induction csv_rows as [|raw rows IH]; [reflexivity|].
    cbn [omap list_omap map List.filter]. unfold keep at 1.
    destruct (truthy (strip (or_empty (raw !! lit "기본질문")))) eqn:Eq;
      destruct (truthy (strip (or_empty (raw !! lit "기본답변")))) eqn:Ea;
      cbn [negb orb map Loader.question truthy]; rewrite ?Eq; cbn [truthy];
      now rewrite IH.
  - apply omap_length_le.
Qed.

Example loaded_rows_example :
  map Loader.question (load_all_law_rows example_csv_rows) = [lit "보증금을 못 받았어요"]
  /\ map Loader.law_category (load_all_law_rows example_csv_rows) = [lit "임대차"].
Proof. split; vm_compute; reflexivity. Qed.

(** X26: [_pick] returns the trimmed text of the first listed column that
    is present and not blank, so the earlier columns are all absent or blank
    and the result is never empty; it returns nothing exactly when every
    listed column is absent or blank. *)
Theorem pick_first_filled (d : RawRow) (keys : list str) :
  match _pick d keys with
  | Some s =>
      s <> [] /\ strip s = s
      /\ exists before k after v,
           keys = before ++ k :: after
           /\ Forall (fun k' => ~ filled d k') before
           /\ d !! k = Some v /\ s = strip v
  | None => Forall (fun k => ~ filled d k) keys
  end.
Proof.
  induction keys as [|k keys IH]; [constructor|].
  cbn [_pick].
  destruct (d !! k) as [v|] eqn:Ev.
  - cbv zeta. destruct (truthy (strip v)) eqn:Et.
    + apply truthy_nonempty in Et. split; [exact Et|].
      split; [apply strip_idempotent|].
      exists [], k, keys, v. repeat split; [constructor | exact Ev].
    + assert (Hk : ~ filled d k).
      { intros (v' & Hv' & Hne). rewrite Ev in Hv'. inversion Hv'; subst.
        destruct (strip v'); [congruence | discriminate]. }
      destruct (_pick d keys) as [s|].
      * destruct IH as (Hs & Hi & before & k0 & after & v0 & -> & Hb & Hv0 & ->).
        split; [exact Hs|]. split; [exact Hi|].
        exists (k :: before), k0, after, v0.
        repeat split; [constructor; assumption | exact Hv0].
      * constructor; assumption.
  - assert (Hk : ~ filled d k).
    { intros (v' & Hv' & _). rewrite Ev in Hv'. discriminate. }
    destruct (_pick d keys) as [s|].
    + destruct IH as (Hs & Hi & before & k0 & after & v0 & -> & Hb & Hv0 & ->).
      split; [exact Hs|]. split; [exact Hi|].
      exists (k :: before), k0, after, v0.
      repeat split; [constructor; assumption | exact Hv0].
    + constructor; assumption.
Qed.

Example pick_example :
  _pick (<[lit "q" := lit " 내용증명 "]> (<[lit "question" := lit "  "]> ∅))
    [lit "question"; lit "q"; lit "기본질문"]
  = Some (lit "내용증명").
Proof. vm_compute. reflexivity. Qed.

Lemma pick_shape d keys s : _pick d keys = Some s -> s <> [] /\ strip s = s.
Proof.
  induction keys as [|k keys IH]; [discriminate|].
  cbn [_pick]. destruct (d !! k) as [v|]; [|exact IH].
  cbv zeta. destruct (truthy (strip v)) eqn:Et; [|exact IH].
  intros H. assert (E : s = strip v) by congruence. subst s.
  apply truthy_nonempty in Et. split; [exact Et | apply strip_idempotent].
Qed.

Lemma or_else_pick d keys dflt :
  (exists s, _pick d keys = Some s /\ or_else (_pick d keys) dflt = s
             /\ s <> [] /\ strip s = s)
  \/ (_pick d keys = None /\ or_else (_pick d keys) dflt = dflt).
Proof.
  destruct (_pick d keys) as [s|] eqn:E; [left | right; split; reflexivity].
  destruct (pick_shape d keys s E) as [Hne Hs].
  exists s. repeat split; try assumption.
  destruct s; [congruence | reflexivity].
Qed.

(** X27: every row [read_law_rows_from_csv] returns has a non-empty question
    and answer with no surrounding whitespace and a non-empty category
    (UNKNOWN when no category column is filled); its dataset label is
    non-empty whenever the default label is; rows with a blank question or
    answer are dropped, so there are at most as many rows as lines. *)
Theorem cli_rows_are_complete (w : World) (path_default : str) (csv_rows : list RawRow) :
  Forall (fun r =>
            Loader.question r <> [] /\ strip (Loader.question r) = Loader.question r
            /\ Loader.answer r <> [] /\ strip (Loader.answer r) = Loader.answer r
            /\ Loader.law_category r <> []
            /\ (match getenv w "SOURCE_DATASET" with Some v => v | None => path_default end
                <> [] -> Loader.source_dataset r <> []))
    (read_law_rows_from_csv w path_default csv_rows)
  /\ (length (read_law_rows_from_csv w path_default csv_rows) <= length csv_rows)%nat.
Proof.
  unfold read_law_rows_from_csv. cbv zeta.
  set (source_default := match getenv w "SOURCE_DATASET" with
                         | Some v => v | None => path_default end).
  set (row := fun r : RawRow =>
         {| Loader.source_dataset :=
              or_else (_pick r [lit "source_dataset"; lit "sourceDataset"; lit "dataset_name";
                                lit "dataset"; lit "datasetName"]) source_default;
            Loader.law_category :=
              or_else (_pick r [lit "law_category"; lit "lawCategory"; lit "category";
                                lit "법률분류"]) (lit "UNKNOWN");
            Loader.question := or_else (_pick r [lit "question"; lit "q"; lit "기본질문"]) [];
            Loader.answer := or_else (_pick r [lit "answer"; lit "a"; lit "기본답변"]) [] |}).
  set (keep := fun r : RawRow =>
         if negb (truthy (strip (Loader.question (row r))))
            || negb (truthy (strip (Loader.answer (row r))))
         then None else Some (row r)).
  rewrite (fold_left_snoc_filter (read_law_rows_step source_default) keep).
  2:{ intros rows x. unfold read_law_rows_step, keep, row. cbv zeta.
      cbn [Loader.question Loader.answer].
      destruct (negb _ || negb _); reflexivity. }
  cbn [app]. split; [|apply omap_length_le].
  apply omap_Forall. intros raw r. unfold keep.
  destruct (truthy (strip (Loader.question (row raw)))) eqn:Eq;
    destruct (truthy (strip (Loader.answer (row raw)))) eqn:Ea;
    cbn [negb orb]; intros H; try discriminate.
  assert (E : r = row raw) by congruence. subst r.
  unfold row in *.
  cbn [Loader.source_dataset Loader.question Loader.answer Loader.law_category] in *.
  destruct (or_else_pick raw [lit "question"; lit "q"; lit "기본질문"] [])
    as [(q & _ & -> & Hq & Hqs) | [_ Eq']];
    [|rewrite Eq' in Eq; discriminate].
  destruct (or_else_pick raw [lit "answer"; lit "a"; lit "기본답변"] [])
    as [(a & _ & -> & Ha & Has) | [_ Ea']];
    [|rewrite Ea' in Ea; discriminate].
  split; [exact Hq|]. split; [exact Hqs|]. split; [exact Ha|]. split; [exact Has|].
  split.
  - destruct (or_else_pick raw [lit "law_category"; lit "lawCategory"; lit "category";
                                lit "법률분류"] (lit "UNKNOWN"))
      as [(c & _ & -> & Hc & _) | [_ ->]]; [exact Hc | discriminate].
  - intros Hd.
    destruct (or_else_pick raw [lit "source_dataset"; lit "sourceDataset";
                                lit "dataset_name"; lit "dataset"; lit "datasetName"]
                source_default)
      as [(c & _ & -> & Hc & _) | [_ ->]]; [exact Hc | exact Hd].
Qed.

Example cli_rows_example :
  map Loader.law_category (read_law_rows_from_csv bare_world (lit "KLAC") example_csv_rows)
  = [lit "임대차"; lit "UNKNOWN"]
  /\ map Loader.source_dataset
       (read_law_rows_from_csv bare_world (lit "KLAC") example_csv_rows)
     = [lit "KLAC"; lit "KLAC"].
Proof. split; vm_compute; reflexivity. Qed.

(** X28: what ingestion stores, retrieval reads back: a hit whose payload is
    the one [upsert_law_rows] stored for a row yields a neighbour with that
    row's question and answer, its dataset label, and its category (none when
    the category is empty); the extra [embed_model] key of the OpenAI variant
    changes nothing. *)
Theorem stored_payload_reads_back (col : str) (r : LawRow) (i : option PointId)
    (s : option float) (embed_model : str) :
  question (neighbor_of_hit col {| sp_id := i; sp_score := s;
                                   sp_payload := Some (law_row_payload r) |})
  = Some (Loader.question r)
  /\ answer (neighbor_of_hit col {| sp_id := i; sp_score := s;
                                    sp_payload := Some (law_row_payload r) |})
     = Some (Loader.answer r)
  /\ dataset (neighbor_of_hit col {| sp_id := i; sp_score := s;
                                     sp_payload := Some (law_row_payload r) |})
     = Some (Loader.source_dataset r)
  /\ category (neighbor_of_hit col {| sp_id := i; sp_score := s;
                                      sp_payload := Some (law_row_payload r) |})
     = (if truthy (Loader.law_category r) then Some (Loader.law_category r) else None)
  /\ neighbor_of_hit col {| sp_id := i; sp_score := s;
                            sp_payload := Some (law_row_payload_oai embed_model r) |}
     = neighbor_of_hit col {| sp_id := i; sp_score := s;
                              sp_payload := Some (law_row_payload r) |}.
Proof.
  unfold neighbor_of_hit, law_row_payload_oai, law_row_payload.
  cbn [sp_payload sp_id sp_score question answer dataset category].
  repeat (rewrite ?lookup_insert_eq; rewrite ?lookup_insert_ne by discriminate).
  rewrite !lookup_empty.
  repeat split.
  destruct (Loader.law_category r); reflexivity.
Qed.

Lemma trimmed_is_visible s : s <> [] -> strip s = s -> starts_visible s /\ ends_visible s.
Proof.
  intros Hne Hs. split.
  - destruct (strip_starts s) as [E | H]; [congruence | now rewrite Hs in H].
  - destruct (strip_shape s) as [E | H]; [congruence | now rewrite Hs in H].
Qed.

Lemma replace_visible_char c :
  isspace c = false -> (if (c =? 10)%N then 32%N else c) = c.
Proof.
  intros H. destruct (N.eqb_spec c 10) as [-> | _]; [discriminate | reflexivity].
Qed.

(** X29: the text embedded for a stored row is one line: for a row whose
    question and answer are non-empty and trimmed, as the loaders produce
    them, the embedding request carries the question and the answer joined by
    two spaces, every inner line feed turned into a space and nothing
    removed. *)
Theorem row_text_embedded_on_one_line (r : LawRow) :
  Loader.question r <> [] -> strip (Loader.question r) = Loader.question r ->
  Loader.answer r <> [] -> strip (Loader.answer r) = Loader.answer r ->
  clean_text (row_text r)
  = replace_nl_space (Loader.question r) ++ [32%N; 32%N]
    ++ replace_nl_space (Loader.answer r)
  /\ length (clean_text (row_text r)) = length (row_text r).
Proof.
  intros Hq Hqs Ha Has.
  destruct (trimmed_is_visible _ Hq Hqs) as [(c & q' & Eq & Hc) _].
  destruct (trimmed_is_visible _ Ha Has) as [_ (a' & d & Ea & Hd)].
  assert (E : replace_nl_space (row_text r)
              = replace_nl_space (Loader.question r) ++ [32%N; 32%N]
                ++ replace_nl_space (Loader.answer r)).
  { unfold row_text, replace_nl_space, NL. rewrite !map_app. reflexivity. }
  assert (F : strip (replace_nl_space (row_text r)) = replace_nl_space (row_text r)).
  { apply strip_fixed.
    - rewrite E, Eq. unfold replace_nl_space. cbn [map app].
      rewrite replace_visible_char by exact Hc. eexists _, _. split; [reflexivity | exact Hc].
    - rewrite E, Ea. unfold replace_nl_space. rewrite map_app. cbn [map].
      rewrite replace_visible_char by exact Hd.
      exists (map (fun c0 => if (c0 =? 10)%N then 32%N else c0) (c :: q') ++ [32%N; 32%N]
              ++ map (fun c0 => if (c0 =? 10)%N then 32%N else c0) a'), d.
      split; [|exact Hd]. rewrite Eq. now rewrite <- !app_assoc. }
  assert (G : clean_text (row_text r) = replace_nl_space (row_text r)).
  { unfold clean_text. cbv zeta. rewrite F, E, Eq. reflexivity. }
  split; [now rewrite G, E|].
  rewrite G. unfold replace_nl_space. apply length_map.
Qed.

Lemma row_text_example :
  clean_text (row_text example_row)
  = replace_nl_space (Loader.question example_row) ++ [32%N; 32%N]
    ++ replace_nl_space (Loader.answer example_row)
  /\ length (clean_text (row_text example_row)) = length (row_text example_row).
Proof.
  apply (row_text_embedded_on_one_line example_row).
  - vm_compute. discriminate.
  - vm_compute. reflexivity.
  - vm_compute. discriminate.
  - vm_compute. reflexivity.
Defined.
